(** * Diet-Delight backend: the recipe controller

    A shallow embedding of [src/controllers/recipeController.js]: the
    [getRecipes] handler (store lookup, provider fallback, mapping,
    persistence, sampling) and the [/print] route, with the properties the
    specification states about them.

    Layout: the engine's string built-ins, the data model, the effect monad
    (store, provider log, random draws, exceptions), the two handlers, and
    then the theorems. *)

From Stdlib Require Import String Ascii Floats.
From Stdlib Require Import List NArith Arith Lia Bool Permutation.
Import ListNotations.

Set Implicit Arguments.
Set Warnings "-inexact-float".

Local Open Scope N_scope.

(** ** Strings

    A JavaScript string is a sequence of UTF-16 code units. *)

Definition jsstring := list N.

(** Literals of the source, written as Rocq strings of ASCII characters. *)
Definition lit (s : string) : jsstring := map N_of_ascii (list_ascii_of_string s).

Definition hyphen : N := 45.

(** [String.prototype.charAt(0)] and [String.prototype.slice(1)]. *)
Definition charAt0 (s : jsstring) : jsstring :=
  match s with
  | [] => []
  | c :: _ => [c]
  end.

Definition slice1 (s : jsstring) : jsstring := tl s.

(** [String.prototype.split] with a one-unit separator: the empty string
    splits into one empty segment. *)
Fixpoint split (sep : N) (s : jsstring) : list jsstring :=
  match s with
  | [] => [[]]
  | c :: r =>
      if N.eqb c sep then [] :: split sep r
      else match split sep r with
           | w :: ws => (c :: w) :: ws
           | [] => [[c]]
           end
  end.

(** [Array.prototype.join]. *)
Fixpoint join (sep : jsstring) (l : list jsstring) : jsstring :=
  match l with
  | [] => []
  | [w] => w
  | w :: ws => w ++ sep ++ join sep ws
  end.

(** ** UTF-16

    Units from U+D800 to U+DBFF are high surrogates, units from U+DC00 to
    U+DFFF low surrogates; a high one followed by a low one is one code
    point above U+FFFF. *)

Definition is_high (c : N) : bool := (55296 <=? c) && (c <=? 56319).
Definition is_low (c : N) : bool := (56320 <=? c) && (c <=? 57343).

Definition surrogatePair (hi lo : N) : N :=
  65536 + (hi - 55296) * 1024 + (lo - 56320).

(** ** Letter case

    [String.prototype.toUpperCase] and [toLowerCase] follow the Unicode
    Character Database: the simple and the unconditional special case
    mappings of every code point, and the Final_Sigma rule for the
    lowercase of capital sigma.  The tables are those of Unicode 14.0. *)

(** A run of code points from [lo] to [hi], every [stride]-th of them
    mapped to the code point at the same distance from [target]. *)
Definition inCaseRange (e : N * N * N * N) (cp : N) : bool :=
  let '(lo, hi, stride, _) := e in
  (lo <=? cp) && (cp <=? hi) && ((cp - lo) mod stride =? 0).

Fixpoint mapped (table : list (N * N * N * N)) (cp : N) : option N :=
  match table with
  | [] => None
  | (lo, hi, stride, target) :: rest =>
      if inCaseRange (lo, hi, stride, target) cp then Some (target + (cp - lo))
      else mapped rest cp
  end.

Fixpoint special (table : list (N * list N)) (cp : N) : option (list N) :=
  match table with
  | [] => None
  | (key, image) :: rest => if cp =? key then Some image else special rest cp
  end.

Definition within (ranges : list (N * N)) (cp : N) : bool :=
  existsb (fun r => (fst r <=? cp) && (cp <=? snd r)) ranges.

Definition upperRanges : list (N * N * N * N) :=
  [
   (97, 122, 1, 65); (181, 181, 1, 924); (224, 246, 1, 192);
   (248, 254, 1, 216); (255, 255, 1, 376); (257, 303, 2, 256);
   (305, 305, 1, 73); (307, 311, 2, 306); (314, 328, 2, 313);
   (331, 375, 2, 330); (378, 382, 2, 377); (383, 383, 1, 83);
   (384, 384, 1, 579); (387, 389, 2, 386); (392, 392, 1, 391);
   (396, 396, 1, 395); (402, 402, 1, 401); (405, 405, 1, 502);
   (409, 409, 1, 408); (410, 410, 1, 573); (414, 414, 1, 544);
   (417, 421, 2, 416); (424, 424, 1, 423); (429, 429, 1, 428);
   (432, 432, 1, 431); (436, 438, 2, 435); (441, 441, 1, 440);
   (445, 445, 1, 444); (447, 447, 1, 503); (453, 453, 1, 452);
   (454, 454, 1, 452); (456, 456, 1, 455); (457, 457, 1, 455);
   (459, 459, 1, 458); (460, 460, 1, 458); (462, 476, 2, 461);
   (477, 477, 1, 398); (479, 495, 2, 478); (498, 498, 1, 497);
   (499, 499, 1, 497); (501, 501, 1, 500); (505, 543, 2, 504);
   (547, 563, 2, 546); (572, 572, 1, 571); (575, 576, 1, 11390);
   (578, 578, 1, 577); (583, 591, 2, 582); (592, 592, 1, 11375);
   (593, 593, 1, 11373); (594, 594, 1, 11376); (595, 595, 1, 385);
   (596, 596, 1, 390); (598, 599, 1, 393); (601, 601, 1, 399);
   (603, 603, 1, 400); (604, 604, 1, 42923); (608, 608, 1, 403);
   (609, 609, 1, 42924); (611, 611, 1, 404); (613, 613, 1, 42893);
   (614, 614, 1, 42922); (616, 616, 1, 407); (617, 617, 1, 406);
   (618, 618, 1, 42926); (619, 619, 1, 11362); (620, 620, 1, 42925);
   (623, 623, 1, 412); (625, 625, 1, 11374); (626, 626, 1, 413);
   (629, 629, 1, 415); (637, 637, 1, 11364); (640, 640, 1, 422);
   (642, 642, 1, 42949); (643, 643, 1, 425); (647, 647, 1, 42929);
   (648, 648, 1, 430); (649, 649, 1, 580); (650, 651, 1, 433);
   (652, 652, 1, 581); (658, 658, 1, 439); (669, 669, 1, 42930);
   (670, 670, 1, 42928); (837, 837, 1, 921); (881, 883, 2, 880);
   (887, 887, 1, 886); (891, 893, 1, 1021); (940, 940, 1, 902);
   (941, 943, 1, 904); (945, 961, 1, 913); (962, 962, 1, 931);
   (963, 971, 1, 931); (972, 972, 1, 908); (973, 974, 1, 910);
   (976, 976, 1, 914); (977, 977, 1, 920); (981, 981, 1, 934);
   (982, 982, 1, 928); (983, 983, 1, 975); (985, 1007, 2, 984);
   (1008, 1008, 1, 922); (1009, 1009, 1, 929); (1010, 1010, 1, 1017);
   (1011, 1011, 1, 895); (1013, 1013, 1, 917); (1016, 1016, 1, 1015);
   (1019, 1019, 1, 1018); (1072, 1103, 1, 1040); (1104, 1119, 1, 1024);
   (1121, 1153, 2, 1120); (1163, 1215, 2, 1162); (1218, 1230, 2, 1217);
   (1231, 1231, 1, 1216); (1233, 1327, 2, 1232); (1377, 1414, 1, 1329);
   (4304, 4346, 1, 7312); (4349, 4351, 1, 7357); (5112, 5117, 1, 5104);
   (7296, 7296, 1, 1042); (7297, 7297, 1, 1044); (7298, 7298, 1, 1054);
   (7299, 7300, 1, 1057); (7301, 7301, 1, 1058); (7302, 7302, 1, 1066);
   (7303, 7303, 1, 1122); (7304, 7304, 1, 42570); (7545, 7545, 1, 42877);
   (7549, 7549, 1, 11363); (7566, 7566, 1, 42950); (7681, 7829, 2, 7680);
   (7835, 7835, 1, 7776); (7841, 7935, 2, 7840); (7936, 7943, 1, 7944);
   (7952, 7957, 1, 7960); (7968, 7975, 1, 7976); (7984, 7991, 1, 7992);
   (8000, 8005, 1, 8008); (8017, 8023, 2, 8025); (8032, 8039, 1, 8040);
   (8048, 8049, 1, 8122); (8050, 8053, 1, 8136); (8054, 8055, 1, 8154);
   (8056, 8057, 1, 8184); (8058, 8059, 1, 8170); (8060, 8061, 1, 8186);
   (8112, 8113, 1, 8120); (8126, 8126, 1, 921); (8144, 8145, 1, 8152);
   (8160, 8161, 1, 8168); (8165, 8165, 1, 8172); (8526, 8526, 1, 8498);
   (8560, 8575, 1, 8544); (8580, 8580, 1, 8579); (9424, 9449, 1, 9398);
   (11312, 11359, 1, 11264); (11361, 11361, 1, 11360);
   (11365, 11365, 1, 570); (11366, 11366, 1, 574);
   (11368, 11372, 2, 11367); (11379, 11379, 1, 11378);
   (11382, 11382, 1, 11381); (11393, 11491, 2, 11392);
   (11500, 11502, 2, 11499); (11507, 11507, 1, 11506);
   (11520, 11557, 1, 4256); (11559, 11559, 1, 4295);
   (11565, 11565, 1, 4301); (42561, 42605, 2, 42560);
   (42625, 42651, 2, 42624); (42787, 42799, 2, 42786);
   (42803, 42863, 2, 42802); (42874, 42876, 2, 42873);
   (42879, 42887, 2, 42878); (42892, 42892, 1, 42891);
   (42897, 42899, 2, 42896); (42900, 42900, 1, 42948);
   (42903, 42921, 2, 42902); (42933, 42947, 2, 42932);
   (42952, 42954, 2, 42951); (42961, 42961, 1, 42960);
   (42967, 42969, 2, 42966); (42998, 42998, 1, 42997);
   (43859, 43859, 1, 42931); (43888, 43967, 1, 5024);
   (65345, 65370, 1, 65313); (66600, 66639, 1, 66560);
   (66776, 66811, 1, 66736); (66967, 66977, 1, 66928);
   (66979, 66993, 1, 66940); (66995, 67001, 1, 66956);
   (67003, 67004, 1, 66964); (68800, 68850, 1, 68736);
   (71872, 71903, 1, 71840); (93792, 93823, 1, 93760);
   (125218, 125251, 1, 125184)
  ].

(** Code points whose uppercase is more than one code point. *)
Definition upperSpecial : list (N * list N) :=
  [
   (223, [83; 83]); (329, [700; 78]); (496, [74; 780]);
   (912, [921; 776; 769]); (944, [933; 776; 769]); (1415, [1333; 1362]);
   (7830, [72; 817]); (7831, [84; 776]); (7832, [87; 778]);
   (7833, [89; 778]); (7834, [65; 702]); (8016, [933; 787]);
   (8018, [933; 787; 768]); (8020, [933; 787; 769]);
   (8022, [933; 787; 834]); (8064, [7944; 921]); (8065, [7945; 921]);
   (8066, [7946; 921]); (8067, [7947; 921]); (8068, [7948; 921]);
   (8069, [7949; 921]); (8070, [7950; 921]); (8071, [7951; 921]);
   (8072, [7944; 921]); (8073, [7945; 921]); (8074, [7946; 921]);
   (8075, [7947; 921]); (8076, [7948; 921]); (8077, [7949; 921]);
   (8078, [7950; 921]); (8079, [7951; 921]); (8080, [7976; 921]);
   (8081, [7977; 921]); (8082, [7978; 921]); (8083, [7979; 921]);
   (8084, [7980; 921]); (8085, [7981; 921]); (8086, [7982; 921]);
   (8087, [7983; 921]); (8088, [7976; 921]); (8089, [7977; 921]);
   (8090, [7978; 921]); (8091, [7979; 921]); (8092, [7980; 921]);
   (8093, [7981; 921]); (8094, [7982; 921]); (8095, [7983; 921]);
   (8096, [8040; 921]); (8097, [8041; 921]); (8098, [8042; 921]);
   (8099, [8043; 921]); (8100, [8044; 921]); (8101, [8045; 921]);
   (8102, [8046; 921]); (8103, [8047; 921]); (8104, [8040; 921]);
   (8105, [8041; 921]); (8106, [8042; 921]); (8107, [8043; 921]);
   (8108, [8044; 921]); (8109, [8045; 921]); (8110, [8046; 921]);
   (8111, [8047; 921]); (8114, [8122; 921]); (8115, [913; 921]);
   (8116, [902; 921]); (8118, [913; 834]); (8119, [913; 834; 921]);
   (8124, [913; 921]); (8130, [8138; 921]); (8131, [919; 921]);
   (8132, [905; 921]); (8134, [919; 834]); (8135, [919; 834; 921]);
   (8140, [919; 921]); (8146, [921; 776; 768]); (8147, [921; 776; 769]);
   (8150, [921; 834]); (8151, [921; 776; 834]); (8162, [933; 776; 768]);
   (8163, [933; 776; 769]); (8164, [929; 787]); (8166, [933; 834]);
   (8167, [933; 776; 834]); (8178, [8186; 921]); (8179, [937; 921]);
   (8180, [911; 921]); (8182, [937; 834]); (8183, [937; 834; 921]);
   (8188, [937; 921]); (64256, [70; 70]); (64257, [70; 73]);
   (64258, [70; 76]); (64259, [70; 70; 73]); (64260, [70; 70; 76]);
   (64261, [83; 84]); (64262, [83; 84]); (64275, [1348; 1350]);
   (64276, [1348; 1333]); (64277, [1348; 1339]); (64278, [1358; 1350]);
   (64279, [1348; 1341])
  ].

Definition lowerRanges : list (N * N * N * N) :=
  [
   (65, 90, 1, 97); (192, 214, 1, 224); (216, 222, 1, 248);
   (256, 302, 2, 257); (306, 310, 2, 307); (313, 327, 2, 314);
   (330, 374, 2, 331); (376, 376, 1, 255); (377, 381, 2, 378);
   (385, 385, 1, 595); (386, 388, 2, 387); (390, 390, 1, 596);
   (391, 391, 1, 392); (393, 394, 1, 598); (395, 395, 1, 396);
   (398, 398, 1, 477); (399, 399, 1, 601); (400, 400, 1, 603);
   (401, 401, 1, 402); (403, 403, 1, 608); (404, 404, 1, 611);
   (406, 406, 1, 617); (407, 407, 1, 616); (408, 408, 1, 409);
   (412, 412, 1, 623); (413, 413, 1, 626); (415, 415, 1, 629);
   (416, 420, 2, 417); (422, 422, 1, 640); (423, 423, 1, 424);
   (425, 425, 1, 643); (428, 428, 1, 429); (430, 430, 1, 648);
   (431, 431, 1, 432); (433, 434, 1, 650); (435, 437, 2, 436);
   (439, 439, 1, 658); (440, 440, 1, 441); (444, 444, 1, 445);
   (452, 452, 1, 454); (453, 453, 1, 454); (455, 455, 1, 457);
   (456, 456, 1, 457); (458, 458, 1, 460); (459, 475, 2, 460);
   (478, 494, 2, 479); (497, 497, 1, 499); (498, 500, 2, 499);
   (502, 502, 1, 405); (503, 503, 1, 447); (504, 542, 2, 505);
   (544, 544, 1, 414); (546, 562, 2, 547); (570, 570, 1, 11365);
   (571, 571, 1, 572); (573, 573, 1, 410); (574, 574, 1, 11366);
   (577, 577, 1, 578); (579, 579, 1, 384); (580, 580, 1, 649);
   (581, 581, 1, 652); (582, 590, 2, 583); (880, 882, 2, 881);
   (886, 886, 1, 887); (895, 895, 1, 1011); (902, 902, 1, 940);
   (904, 906, 1, 941); (908, 908, 1, 972); (910, 911, 1, 973);
   (913, 929, 1, 945); (931, 939, 1, 963); (975, 975, 1, 983);
   (984, 1006, 2, 985); (1012, 1012, 1, 952); (1015, 1015, 1, 1016);
   (1017, 1017, 1, 1010); (1018, 1018, 1, 1019); (1021, 1023, 1, 891);
   (1024, 1039, 1, 1104); (1040, 1071, 1, 1072); (1120, 1152, 2, 1121);
   (1162, 1214, 2, 1163); (1216, 1216, 1, 1231); (1217, 1229, 2, 1218);
   (1232, 1326, 2, 1233); (1329, 1366, 1, 1377); (4256, 4293, 1, 11520);
   (4295, 4295, 1, 11559); (4301, 4301, 1, 11565); (5024, 5103, 1, 43888);
   (5104, 5109, 1, 5112); (7312, 7354, 1, 4304); (7357, 7359, 1, 4349);
   (7680, 7828, 2, 7681); (7838, 7838, 1, 223); (7840, 7934, 2, 7841);
   (7944, 7951, 1, 7936); (7960, 7965, 1, 7952); (7976, 7983, 1, 7968);
   (7992, 7999, 1, 7984); (8008, 8013, 1, 8000); (8025, 8031, 2, 8017);
   (8040, 8047, 1, 8032); (8072, 8079, 1, 8064); (8088, 8095, 1, 8080);
   (8104, 8111, 1, 8096); (8120, 8121, 1, 8112); (8122, 8123, 1, 8048);
   (8124, 8124, 1, 8115); (8136, 8139, 1, 8050); (8140, 8140, 1, 8131);
   (8152, 8153, 1, 8144); (8154, 8155, 1, 8054); (8168, 8169, 1, 8160);
   (8170, 8171, 1, 8058); (8172, 8172, 1, 8165); (8184, 8185, 1, 8056);
   (8186, 8187, 1, 8060); (8188, 8188, 1, 8179); (8486, 8486, 1, 969);
   (8490, 8490, 1, 107); (8491, 8491, 1, 229); (8498, 8498, 1, 8526);
   (8544, 8559, 1, 8560); (8579, 8579, 1, 8580); (9398, 9423, 1, 9424);
   (11264, 11311, 1, 11312); (11360, 11360, 1, 11361);
   (11362, 11362, 1, 619); (11363, 11363, 1, 7549); (11364, 11364, 1, 637);
   (11367, 11371, 2, 11368); (11373, 11373, 1, 593);
   (11374, 11374, 1, 625); (11375, 11375, 1, 592); (11376, 11376, 1, 594);
   (11378, 11378, 1, 11379); (11381, 11381, 1, 11382);
   (11390, 11391, 1, 575); (11392, 11490, 2, 11393);
   (11499, 11501, 2, 11500); (11506, 11506, 1, 11507);
   (42560, 42604, 2, 42561); (42624, 42650, 2, 42625);
   (42786, 42798, 2, 42787); (42802, 42862, 2, 42803);
   (42873, 42875, 2, 42874); (42877, 42877, 1, 7545);
   (42878, 42886, 2, 42879); (42891, 42891, 1, 42892);
   (42893, 42893, 1, 613); (42896, 42898, 2, 42897);
   (42902, 42920, 2, 42903); (42922, 42922, 1, 614);
   (42923, 42923, 1, 604); (42924, 42924, 1, 609); (42925, 42925, 1, 620);
   (42926, 42926, 1, 618); (42928, 42928, 1, 670); (42929, 42929, 1, 647);
   (42930, 42930, 1, 669); (42931, 42931, 1, 43859);
   (42932, 42946, 2, 42933); (42948, 42948, 1, 42900);
   (42949, 42949, 1, 642); (42950, 42950, 1, 7566);
   (42951, 42953, 2, 42952); (42960, 42960, 1, 42961);
   (42966, 42968, 2, 42967); (42997, 42997, 1, 42998);
   (65313, 65338, 1, 65345); (66560, 66599, 1, 66600);
   (66736, 66771, 1, 66776); (66928, 66938, 1, 66967);
   (66940, 66954, 1, 66979); (66956, 66962, 1, 66995);
   (66964, 66965, 1, 67003); (68736, 68786, 1, 68800);
   (71840, 71871, 1, 71872); (93760, 93791, 1, 93792);
   (125184, 125217, 1, 125218)
  ].

Definition lowerSpecial : list (N * list N) :=
  [
   (304, [105; 775])
  ].

(** Case-ignorable code points. *)
Definition ignorableRanges : list (N * N) :=
  [
   (39, 39); (46, 46); (58, 58); (94, 94); (96, 96); (168, 168);
   (173, 173); (175, 175); (180, 180); (183, 184); (688, 879); (884, 885);
   (890, 890); (900, 901); (903, 903); (1155, 1161); (1369, 1369);
   (1375, 1375); (1425, 1469); (1471, 1471); (1473, 1474); (1476, 1477);
   (1479, 1479); (1524, 1524); (1536, 1541); (1552, 1562); (1564, 1564);
   (1600, 1600); (1611, 1631); (1648, 1648); (1750, 1757); (1759, 1768);
   (1770, 1773); (1807, 1807); (1809, 1809); (1840, 1866); (1958, 1968);
   (2027, 2037); (2042, 2042); (2045, 2045); (2070, 2093); (2137, 2139);
   (2184, 2184); (2192, 2193); (2200, 2207); (2249, 2306); (2362, 2362);
   (2364, 2364); (2369, 2376); (2381, 2381); (2385, 2391); (2402, 2403);
   (2417, 2417); (2433, 2433); (2492, 2492); (2497, 2500); (2509, 2509);
   (2530, 2531); (2558, 2558); (2561, 2562); (2620, 2620); (2625, 2626);
   (2631, 2632); (2635, 2637); (2641, 2641); (2672, 2673); (2677, 2677);
   (2689, 2690); (2748, 2748); (2753, 2757); (2759, 2760); (2765, 2765);
   (2786, 2787); (2810, 2815); (2817, 2817); (2876, 2876); (2879, 2879);
   (2881, 2884); (2893, 2893); (2901, 2902); (2914, 2915); (2946, 2946);
   (3008, 3008); (3021, 3021); (3072, 3072); (3076, 3076); (3132, 3132);
   (3134, 3136); (3142, 3144); (3146, 3149); (3157, 3158); (3170, 3171);
   (3201, 3201); (3260, 3260); (3263, 3263); (3270, 3270); (3276, 3277);
   (3298, 3299); (3328, 3329); (3387, 3388); (3393, 3396); (3405, 3405);
   (3426, 3427); (3457, 3457); (3530, 3530); (3538, 3540); (3542, 3542);
   (3633, 3633); (3636, 3642); (3654, 3662); (3761, 3761); (3764, 3772);
   (3782, 3782); (3784, 3789); (3864, 3865); (3893, 3893); (3895, 3895);
   (3897, 3897); (3953, 3966); (3968, 3972); (3974, 3975); (3981, 3991);
   (3993, 4028); (4038, 4038); (4141, 4144); (4146, 4151); (4153, 4154);
   (4157, 4158); (4184, 4185); (4190, 4192); (4209, 4212); (4226, 4226);
   (4229, 4230); (4237, 4237); (4253, 4253); (4348, 4348); (4957, 4959);
   (5906, 5908); (5938, 5939); (5970, 5971); (6002, 6003); (6068, 6069);
   (6071, 6077); (6086, 6086); (6089, 6099); (6103, 6103); (6109, 6109);
   (6155, 6159); (6211, 6211); (6277, 6278); (6313, 6313); (6432, 6434);
   (6439, 6440); (6450, 6450); (6457, 6459); (6679, 6680); (6683, 6683);
   (6742, 6742); (6744, 6750); (6752, 6752); (6754, 6754); (6757, 6764);
   (6771, 6780); (6783, 6783); (6823, 6823); (6832, 6862); (6912, 6915);
   (6964, 6964); (6966, 6970); (6972, 6972); (6978, 6978); (7019, 7027);
   (7040, 7041); (7074, 7077); (7080, 7081); (7083, 7085); (7142, 7142);
   (7144, 7145); (7149, 7149); (7151, 7153); (7212, 7219); (7222, 7223);
   (7288, 7293); (7376, 7378); (7380, 7392); (7394, 7400); (7405, 7405);
   (7412, 7412); (7416, 7417); (7468, 7530); (7544, 7544); (7579, 7679);
   (8125, 8125); (8127, 8129); (8141, 8143); (8157, 8159); (8173, 8175);
   (8189, 8190); (8203, 8207); (8216, 8217); (8228, 8228); (8231, 8231);
   (8234, 8238); (8288, 8292); (8294, 8303); (8305, 8305); (8319, 8319);
   (8336, 8348); (8400, 8432); (11388, 11389); (11503, 11505);
   (11631, 11631); (11647, 11647); (11744, 11775); (11823, 11823);
   (12293, 12293); (12330, 12333); (12337, 12341); (12347, 12347);
   (12441, 12446); (12540, 12542); (40981, 40981); (42232, 42237);
   (42508, 42508); (42607, 42610); (42612, 42621); (42623, 42623);
   (42652, 42655); (42736, 42737); (42752, 42785); (42864, 42864);
   (42888, 42890); (42994, 42996); (43000, 43001); (43010, 43010);
   (43014, 43014); (43019, 43019); (43045, 43046); (43052, 43052);
   (43204, 43205); (43232, 43249); (43263, 43263); (43302, 43309);
   (43335, 43345); (43392, 43394); (43443, 43443); (43446, 43449);
   (43452, 43453); (43471, 43471); (43493, 43494); (43561, 43566);
   (43569, 43570); (43573, 43574); (43587, 43587); (43596, 43596);
   (43632, 43632); (43644, 43644); (43696, 43696); (43698, 43700);
   (43703, 43704); (43710, 43711); (43713, 43713); (43741, 43741);
   (43756, 43757); (43763, 43764); (43766, 43766); (43867, 43871);
   (43881, 43883); (44005, 44005); (44008, 44008); (44013, 44013);
   (64286, 64286); (64434, 64450); (65024, 65039); (65043, 65043);
   (65056, 65071); (65106, 65106); (65109, 65109); (65279, 65279);
   (65287, 65287); (65294, 65294); (65306, 65306); (65342, 65342);
   (65344, 65344); (65392, 65392); (65438, 65439); (65507, 65507);
   (65529, 65531); (66045, 66045); (66272, 66272); (66422, 66426);
   (67456, 67461); (67463, 67504); (67506, 67514); (68097, 68099);
   (68101, 68102); (68108, 68111); (68152, 68154); (68159, 68159);
   (68325, 68326); (68900, 68903); (69291, 69292); (69446, 69456);
   (69506, 69509); (69633, 69633); (69688, 69702); (69744, 69744);
   (69747, 69748); (69759, 69761); (69811, 69814); (69817, 69818);
   (69821, 69821); (69826, 69826); (69837, 69837); (69888, 69890);
   (69927, 69931); (69933, 69940); (70003, 70003); (70016, 70017);
   (70070, 70078); (70089, 70092); (70095, 70095); (70191, 70193);
   (70196, 70196); (70198, 70199); (70206, 70206); (70367, 70367);
   (70371, 70378); (70400, 70401); (70459, 70460); (70464, 70464);
   (70502, 70508); (70512, 70516); (70712, 70719); (70722, 70724);
   (70726, 70726); (70750, 70750); (70835, 70840); (70842, 70842);
   (70847, 70848); (70850, 70851); (71090, 71093); (71100, 71101);
   (71103, 71104); (71132, 71133); (71219, 71226); (71229, 71229);
   (71231, 71232); (71339, 71339); (71341, 71341); (71344, 71349);
   (71351, 71351); (71453, 71455); (71458, 71461); (71463, 71467);
   (71727, 71735); (71737, 71738); (71995, 71996); (71998, 71998);
   (72003, 72003); (72148, 72151); (72154, 72155); (72160, 72160);
   (72193, 72202); (72243, 72248); (72251, 72254); (72263, 72263);
   (72273, 72278); (72281, 72283); (72330, 72342); (72344, 72345);
   (72752, 72758); (72760, 72765); (72767, 72767); (72850, 72871);
   (72874, 72880); (72882, 72883); (72885, 72886); (73009, 73014);
   (73018, 73018); (73020, 73021); (73023, 73029); (73031, 73031);
   (73104, 73105); (73109, 73109); (73111, 73111); (73459, 73460);
   (78896, 78904); (92912, 92916); (92976, 92982); (92992, 92995);
   (94031, 94031); (94095, 94111); (94176, 94177); (94179, 94180);
   (110576, 110579); (110581, 110587); (110589, 110590); (113821, 113822);
   (113824, 113827); (118528, 118573); (118576, 118598); (119143, 119145);
   (119155, 119170); (119173, 119179); (119210, 119213); (119362, 119364);
   (121344, 121398); (121403, 121452); (121461, 121461); (121476, 121476);
   (121499, 121503); (121505, 121519); (122880, 122886); (122888, 122904);
   (122907, 122913); (122915, 122916); (122918, 122922); (123184, 123197);
   (123566, 123566); (123628, 123631); (125136, 125142); (125252, 125259);
   (127995, 127999); (917505, 917505); (917536, 917631); (917760, 917999)
  ].

(** Cased code points that are not case-ignorable. *)
Definition casedRanges : list (N * N) :=
  [
   (65, 90); (97, 122); (170, 170); (181, 181); (186, 186); (192, 214);
   (216, 246); (248, 442); (444, 447); (452, 659); (661, 687); (880, 883);
   (886, 887); (891, 893); (895, 895); (902, 902); (904, 906); (908, 908);
   (910, 929); (931, 1013); (1015, 1153); (1162, 1327); (1329, 1366);
   (1376, 1416); (4256, 4293); (4295, 4295); (4301, 4301); (4304, 4346);
   (4349, 4351); (5024, 5109); (5112, 5117); (7296, 7304); (7312, 7354);
   (7357, 7359); (7424, 7467); (7531, 7543); (7545, 7578); (7680, 7957);
   (7960, 7965); (7968, 8005); (8008, 8013); (8016, 8023); (8025, 8025);
   (8027, 8027); (8029, 8029); (8031, 8061); (8064, 8116); (8118, 8124);
   (8126, 8126); (8130, 8132); (8134, 8140); (8144, 8147); (8150, 8155);
   (8160, 8172); (8178, 8180); (8182, 8188); (8450, 8450); (8455, 8455);
   (8458, 8467); (8469, 8469); (8473, 8477); (8484, 8484); (8486, 8486);
   (8488, 8488); (8490, 8493); (8495, 8500); (8505, 8505); (8508, 8511);
   (8517, 8521); (8526, 8526); (8544, 8575); (8579, 8580); (9398, 9449);
   (11264, 11387); (11390, 11492); (11499, 11502); (11506, 11507);
   (11520, 11557); (11559, 11559); (11565, 11565); (42560, 42605);
   (42624, 42651); (42786, 42863); (42865, 42887); (42891, 42894);
   (42896, 42954); (42960, 42961); (42963, 42963); (42965, 42969);
   (42997, 42998); (43002, 43002); (43824, 43866); (43872, 43880);
   (43888, 43967); (64256, 64262); (64275, 64279); (65313, 65338);
   (65345, 65370); (66560, 66639); (66736, 66771); (66776, 66811);
   (66928, 66938); (66940, 66954); (66956, 66962); (66964, 66965);
   (66967, 66977); (66979, 66993); (66995, 67001); (67003, 67004);
   (68736, 68786); (68800, 68850); (71840, 71903); (93760, 93823);
   (119808, 119892); (119894, 119964); (119966, 119967); (119970, 119970);
   (119973, 119974); (119977, 119980); (119982, 119993); (119995, 119995);
   (119997, 120003); (120005, 120069); (120071, 120074); (120077, 120084);
   (120086, 120092); (120094, 120121); (120123, 120126); (120128, 120132);
   (120134, 120134); (120138, 120144); (120146, 120485); (120488, 120512);
   (120514, 120538); (120540, 120570); (120572, 120596); (120598, 120628);
   (120630, 120654); (120656, 120686); (120688, 120712); (120714, 120744);
   (120746, 120770); (120772, 120779); (122624, 122633); (122635, 122654);
   (125184, 125251); (127280, 127305); (127312, 127337); (127344, 127369)
  ].

Definition upperPoint (cp : N) : list N :=
  match special upperSpecial cp with
  | Some image => image
  | None =>
      match mapped upperRanges cp with
      | Some u => [u]
      | None => [cp]
      end
  end.

Definition lowerPoint (cp : N) : list N :=
  match special lowerSpecial cp with
  | Some image => image
  | None =>
      match mapped lowerRanges cp with
      | Some l => [l]
      | None => [cp]
      end
  end.

Definition ignorable (cp : N) : bool := within ignorableRanges cp.
Definition cased (cp : N) : bool := within casedRanges cp.

(** The code points of a string: a high surrogate followed by a low one is
    one code point, any other unit is a code point of its own. *)
Fixpoint codePoints (s : jsstring) : list N :=
  match s with
  | [] => []
  | c :: r =>
      if is_high c then
        match r with
        | d :: r' => if is_low d then surrogatePair c d :: codePoints r'
                     else c :: codePoints r
        | [] => [c]
        end
      else c :: codePoints r
  end.

(** The UTF-16 units of a code point. *)
Definition units (cp : N) : list N :=
  if (65536 <=? cp) && (cp <? 1114112)
  then [55296 + (cp - 65536) / 1024; 56320 + (cp - 65536) mod 1024]
  else [cp].

Definition sigma : N := 931.
Definition finalSigma : N := 962.

(** Whether a cased letter follows, case-ignorable code points skipped. *)
Fixpoint casedFollows (rest : list N) : bool :=
  match rest with
  | [] => false
  | cp :: r => if ignorable cp then casedFollows r else cased cp
  end.

(** [after] says that a cased letter precedes, case-ignorable code points
    skipped. *)
Fixpoint lowerFrom (after : bool) (cps : list N) : list N :=
  match cps with
  | [] => []
  | cp :: rest =>
      (if (cp =? sigma) && after && negb (casedFollows rest)
       then [finalSigma] else lowerPoint cp)
        ++ lowerFrom (if ignorable cp then after else cased cp) rest
  end.

Definition toUpperCase (s : jsstring) : jsstring :=
  flat_map units (flat_map upperPoint (codePoints s)).

Definition toLowerCase (s : jsstring) : jsstring :=
  flat_map units (lowerFrom false (codePoints s)).

(** ** Exceptions *)

Inductive exn : Type :=
| TypeError
| URIError
| ExternalError.

Inductive completion (A : Type) : Type :=
| Normal (a : A)
| Throw (e : exn).
Arguments Throw {A} e.

(** ** [encodeURIComponent]

    The string is read as UTF-16: a high surrogate followed by a low one is
    one code point, any other surrogate is unpaired and raises [URIError].
    Unreserved characters are kept, every other code point is written as
    the percent-escapes of its UTF-8 bytes. *)

Definition unreserved (c : N) : bool :=
  ((65 <=? c) && (c <=? 90)) || ((97 <=? c) && (c <=? 122))
  || ((48 <=? c) && (c <=? 57))
  || existsb (N.eqb c) [45; 95; 46; 33; 126; 42; 39; 40; 41].

Definition hexDigit (d : N) : N := if d <? 10 then 48 + d else 55 + d.

Definition percent (b : N) : jsstring := [37; hexDigit (b / 16); hexDigit (b mod 16)].

Definition utf8 (cp : N) : list N :=
  if cp <? 128 then [cp]
  else if cp <? 2048 then [192 + cp / 64; 128 + cp mod 64]
  else if cp <? 65536 then
    [224 + cp / 4096; 128 + (cp / 64) mod 64; 128 + cp mod 64]
  else
    [240 + cp / 262144; 128 + (cp / 4096) mod 64;
     128 + (cp / 64) mod 64; 128 + cp mod 64].

Definition escapePoint (cp : N) : jsstring :=
  if unreserved cp then [cp] else flat_map percent (utf8 cp).

(** [pending] is the high surrogate read just before, if any. *)
Fixpoint encodeFrom (pending : option N) (s : jsstring) : completion jsstring :=
  match pending, s with
  | None, [] => Normal []
  | Some _, [] => Throw URIError
  | None, c :: r =>
      if is_high c then encodeFrom (Some c) r
      else if is_low c then Throw URIError
      else match encodeFrom None r with
           | Normal e => Normal (escapePoint c ++ e)
           | Throw x => Throw x
           end
  | Some hi, c :: r =>
      if is_low c then
        match encodeFrom None r with
        | Normal e => Normal (escapePoint (surrogatePair hi c) ++ e)
        | Throw x => Throw x
        end
      else Throw URIError
  end.

Definition encodeURIComponent (s : jsstring) : completion jsstring :=
  encodeFrom None s.

(** ** The label normalizer (lines 17 to 23) *)

Definition capitalizeWords (str : jsstring) : jsstring :=
  join [hyphen]
       (map (fun word => toUpperCase (charAt0 word) ++ toLowerCase (slice1 word))
            (split hyphen str)).

(** ** Data model *)

(** A JavaScript number is an IEEE 754 binary64 value. *)
Definition number := float.

(** [ToNumber] of a property that may be [undefined]. *)
Definition toNumber (v : option number) : number :=
  match v with
  | Some x => x
  | None => nan
  end.

(** [totalNutrients]: nutrient code to its label, quantity and unit. *)
Definition nutrients := list (jsstring * (jsstring * number * jsstring)).

(** What the provider sends.  A property that is absent ([undefined]) is
    [None]; a present property has the type the provider documents. *)
Module Raw.

Record recipe : Type := {
  label : option jsstring;
  image : option jsstring;
  source : option jsstring;
  url : option jsstring;
  dietLabels : option (list jsstring);
  healthLabels : option (list jsstring);
  ingredientLines : option (list jsstring);
  yield : option number;
  calories : option number;
  totalTime : option number;
  cuisineType : option (list jsstring);
  mealType : option (list jsstring);
  dishType : option (list jsstring);
  totalNutrients : option nutrients
}.

Record hit : Type := { recipe_of : option recipe }.

(** The value [fetchRecipes] resolves to, when it is an object. *)
Record data : Type := { hits : option (list hit) }.

End Raw.

(** The Recipe shape of lines 62 to 77.  [null] and an absent property are
    [None].  [_id] and [__v] are the store's identifier and version: a
    freshly mapped record has neither. *)
Record Recipe : Type := {
  _id : option N;
  __v : option N;
  title : option jsstring;
  image : option jsstring;
  source : jsstring;
  instructionsUrl : jsstring;
  dietLabels : list jsstring;
  healthLabels : list jsstring;
  ingredients : list jsstring;
  servingSize : option number;
  caloriesPerServing : option number;
  totalTime : option number;
  cuisineType : list jsstring;
  mealType : list jsstring;
  dishType : list jsstring;
  totalNutrients : nutrients
}.

Definition with_ids (i v : option N) (r : Recipe) : Recipe :=
  {| _id := i; __v := v;
     title := title r; image := image r; source := source r;
     instructionsUrl := instructionsUrl r;
     dietLabels := dietLabels r; healthLabels := healthLabels r;
     ingredients := ingredients r; servingSize := servingSize r;
     caloriesPerServing := caloriesPerServing r; totalTime := totalTime r;
     cuisineType := cuisineType r; mealType := mealType r;
     dishType := dishType r; totalNutrients := totalNutrients r |}.

(** A query parameter as the framework hands it over: absent, one value, or
    an array of values. *)
Inductive param : Type :=
| Absent
| Single (s : jsstring)
| Many (l : list jsstring).

(** A parameter once defaulted: a string or an array, never [undefined]. *)
Inductive criteria : Type :=
| Str (s : jsstring)
| Arr (l : list jsstring).

Record Request : Type := { query_diet : param; query_health : param }.

Inductive body : Type :=
| Recipes (l : list Recipe)
| Error (message : jsstring).

Inductive Response : Type :=
| Json (status : nat) (b : body).

(** ** Effects

    The handler reads and writes the store, calls the provider and draws
    random numbers; any of these may raise.  [World] is what a request can
    change; [Env] is how the collaborators answer. *)

Record World : Type := {
  store : list Recipe;            (* the persisted collection *)
  inserts : list (list Recipe);   (* batches handed to [insertMany] so far *)
  calls : list jsstring;          (* arguments of the provider calls so far *)
  draws : nat                     (* [Math.random] calls so far *)
}.

Record Env : Type := {
  provider : jsstring -> completion (option Raw.data);
  reachable : bool;
  accepts : list Recipe -> bool;
  random : nat -> number
}.

Definition M (A : Type) : Type := World -> completion A * World.

Definition ret {A} (a : A) : M A := fun w => (Normal a, w).

Definition bind {A B} (m : M A) (k : A -> M B) : M B :=
  fun w =>
    match m w with
    | (Normal a, w') => k a w'
    | (Throw e, w') => (Throw e, w')
    end.

Definition lift {A} (c : completion A) : M A := fun w => (c, w).

(** [try { m } catch (error) { h error }]. *)
Definition try_catch {A} (m : M A) (h : exn -> M A) : M A :=
  fun w =>
    match m w with
    | (Normal a, w') => (Normal a, w')
    | (Throw e, w') => h e w'
    end.

Declare Scope js_scope.
Delimit Scope js_scope with js.
Notation "x <- m ;; k" := (bind m (fun x => k))
  (at level 61, m at next level, right associativity) : js_scope.
Local Open Scope js_scope.

(** [Array.prototype.map] with a callback that may raise. *)
Fixpoint mapC {A B} (f : A -> completion B) (l : list A) : completion (list B) :=
  match l with
  | [] => Normal []
  | a :: r =>
      match f a with
      | Throw e => Throw e
      | Normal b =>
          match mapC f r with
          | Throw e => Throw e
          | Normal bs => Normal (b :: bs)
          end
      end
  end.

(** ** The store gateway

    [models/db.js], which defines the [Recipe] model, is not among the
    sources; the gateway follows section 4.3 of the specification. *)

Definition streq (a b : jsstring) : bool :=
  if list_eq_dec N.eq_dec a b then true else false.

Definition includes (labels : list jsstring) (t : jsstring) : bool :=
  existsb (streq t) labels.

Record Query : Type := {
  q_dietLabels : option (list jsstring);     (* dietLabels: { $all: ... } *)
  q_healthLabels : option (list jsstring)    (* healthLabels: { $all: ... } *)
}.

(** The projection [{ _id: 0, __v: 0 }]: [true] for a field set to 0. *)
Record Projection : Type := { drop_id : bool; drop_v : bool }.

(** Modelled from the spec: the filter of [find] is a conjunctive match over
    [dietLabels] and [healthLabels] (section 4.3).  A constraint
    [{ $all: tokens }] holds of an array that contains every token, and of
    no array when [tokens] is empty; a field the query leaves out is not
    constrained. *)
Definition all_of (constraint : option (list jsstring)) (labels : list jsstring) : bool :=
  match constraint with
  | None => true
  | Some tokens =>
      negb (Nat.eqb (length tokens) 0) && forallb (includes labels) tokens
  end.

Definition matches (q : Query) (r : Recipe) : bool :=
  all_of (q_dietLabels q) (dietLabels r) && all_of (q_healthLabels q) (healthLabels r).

Definition project (p : Projection) (r : Recipe) : Recipe :=
  with_ids (if drop_id p then None else _id r) (if drop_v p then None else __v r) r.

Section Gateways.

Variable env : Env.

(** Modelled from the spec: [find(filter)] of the missing [models/db.js]
    returns the stored records that match the filter, with the
    projected-out fields removed, and changes nothing (section 4.3).  A
    store that cannot be reached raises. *)
Definition Recipe_find (q : Query) (p : Projection) : M (list Recipe) :=
  fun w =>
    if reachable env
    then (Normal (map (project p) (filter (matches q) (store w))), w)
    else (Throw ExternalError, w).

(** Identifiers are numbered from the size of the collection. *)
Fixpoint persisted (next : N) (batch : list Recipe) : list Recipe :=
  match batch with
  | [] => []
  | r :: rest => with_ids (Some next) (Some 0) r :: persisted (N.succ next) rest
  end.

(** Modelled from the spec: [insertMany(records)] of the missing
    [models/db.js] appends the batch, or fails as a whole and appends
    nothing (section 4.3).  Whether a batch passes the schema is the
    environment's [accepts]. *)
Definition Recipe_insertMany (batch : list Recipe) : M unit :=
  fun w =>
    if accepts env batch
    then (Normal tt,
          {| store := store w ++ persisted (N.of_nat (length (store w))) batch;
             inserts := inserts w ++ [batch];
             calls := calls w; draws := draws w |})
    else (Throw ExternalError,
          {| store := store w; inserts := inserts w ++ [batch];
             calls := calls w; draws := draws w |}).

(** ** The provider gateway *)

(** Modelled from the spec: [fetchRecipes] of the missing
    [service/edamamService.js] resolves to an object with a [hits] array,
    or to nothing, or raises on a transport failure (section 4.4).  The
    answer is the environment's [provider]; every call is logged with its
    argument. *)
Definition fetchRecipes (queryString : jsstring) : M (option Raw.data) :=
  fun w =>
    (provider env queryString,
     {| store := store w; inserts := inserts w;
        calls := calls w ++ [queryString]; draws := draws w |}).

(** [Math.random()]. *)
Definition Math_random : M number :=
  fun w =>
    (Normal (random env (draws w)),
     {| store := store w; inserts := inserts w;
        calls := calls w; draws := S (draws w) |}).

(** ** [Array.prototype.sort] with a comparator

    The comparator of line 93 is not consistent, so the order the engine
    produces is implementation-defined.  The sort is modelled as a
    straight insertion sort that asks the comparator for every decision:
    a negative answer puts the first argument before the second. *)
Section Sort.

Variable A : Type.
Variable comparefn : A -> A -> M number.

Fixpoint insertSorted (x : A) (sorted : list A) : M (list A) :=
  match sorted with
  | [] => ret [x]
  | y :: ys =>
      v <- comparefn x y ;;
      if PrimFloat.ltb v 0%float then ret (x :: y :: ys)
      else (r <- insertSorted x ys ;; ret (y :: r))
  end.

Fixpoint sortInto (sorted rest : list A) : M (list A) :=
  match rest with
  | [] => ret sorted
  | x :: xs => s <- insertSorted x sorted ;; sortInto s xs
  end.

Definition sort (l : list A) : M (list A) := sortInto [] l.

End Sort.

(** ** [getRecipes] *)

(** [req.query.diet || []]: the empty string is falsy. *)
Definition orEmptyArray (p : param) : criteria :=
  match p with
  | Absent => Arr []
  | Single [] => Arr []
  | Single s => Str s
  | Many l => Arr l
  end.

(** Lines 26 and 27: [Array.isArray(c) ? c.map(...) : [capitalizeWords(c)]]. *)
Definition criteriaArray (c : criteria) : list jsstring :=
  match c with
  | Arr l => map capitalizeWords l
  | Str s => [capitalizeWords s]
  end.

(** Lines 34 to 42. *)
Definition buildQuery (dietCriteriaArray healthCriteriaArray : list jsstring) : Query :=
  {| q_dietLabels :=
       if (0 <? length dietCriteriaArray)%nat then Some dietCriteriaArray else None;
     q_healthLabels :=
       if (0 <? length healthCriteriaArray)%nat then Some healthCriteriaArray else None |}.

(** Lines 53 to 55. *)
Definition parameter (name : jsstring) (value : jsstring) : completion jsstring :=
  match encodeURIComponent value with
  | Normal e => Normal (name ++ e)
  | Throw x => Throw x
  end.

Definition buildQueryString (dietLower healthLower : list jsstring) : completion jsstring :=
  match mapC (parameter (lit "diet=")) dietLower with
  | Throw x => Throw x
  | Normal ds =>
      match mapC (parameter (lit "health=")) healthLower with
      | Throw x => Throw x
      | Normal hs => Normal (join (lit "&") ds ++ lit "&" ++ join (lit "&") hs)
      end
  end.

(** [x || fallback] on a string: [undefined] and the empty string are falsy. *)
Definition orString (x : option jsstring) (fallback : jsstring) : jsstring :=
  match x with
  | None | Some [] => fallback
  | Some s => s
  end.

(** [x || []] and [x || {}]: every array and object is truthy. *)
Definition orEmpty {A} (x : option (list A)) : list A :=
  match x with
  | None => []
  | Some l => l
  end.

(** The callback of lines 62 to 77.  Reading a property of an absent
    [hit.recipe], and calling [map] on an absent label array, raise. *)
Definition mapHit (hit : Raw.hit) : completion Recipe :=
  match Raw.recipe_of hit with
  | None => Throw TypeError
  | Some r =>
      match Raw.dietLabels r with
      | None => Throw TypeError
      | Some diet =>
          match Raw.healthLabels r with
          | None => Throw TypeError
          | Some health =>
              Normal
                {| _id := None; __v := None;
                   title := Raw.label r;
                   image := Raw.image r;
                   source := orString (Raw.source r) (lit "Unknown");
                   instructionsUrl := orString (Raw.url r) (lit "No URL available");
                   dietLabels := map capitalizeWords diet;
                   healthLabels := map capitalizeWords health;
                   ingredients := orEmpty (Raw.ingredientLines r);
                   servingSize := Raw.yield r;
                   caloriesPerServing :=
                     match Raw.calories r with
                     | Some c => Some (PrimFloat.div c (toNumber (Raw.yield r)))
                     | None => None
                     end;
                   totalTime := Raw.totalTime r;
                   cuisineType := orEmpty (Raw.cuisineType r);
                   mealType := orEmpty (Raw.mealType r);
                   dishType := orEmpty (Raw.dishType r);
                   totalNutrients := orEmpty (Raw.totalNutrients r) |}
          end
      end
  end.

Definition notFound : Response := Json 404 (Error (lit "No recipes found")).
Definition internalError : Response := Json 500 (Error (lit "Internal Server Error")).

(** The projection of line 47. *)
Definition noIds : Projection := {| drop_id := true; drop_v := true |}.

(** Lines 12 to 90: the value of [recipes] at line 92, or the response of
    the early [return] of line 86. *)
Definition reconcile (req : Request) : M (Response + list Recipe) :=
  let dietCriteria := orEmptyArray (query_diet req) in
  let healthCriteria := orEmptyArray (query_health req) in
  let dietCriteriaArray := criteriaArray dietCriteria in
  let healthCriteriaArray := criteriaArray healthCriteria in
  let dietCriteriaArrayLower := map toLowerCase dietCriteriaArray in
  let healthCriteriaArrayLower := map toLowerCase healthCriteriaArray in
  let query := buildQuery dietCriteriaArray healthCriteriaArray in
  recipes <- Recipe_find query noIds ;;
  if (length recipes <? 12)%nat then
    queryString <- lift (buildQueryString dietCriteriaArrayLower healthCriteriaArrayLower) ;;
    data <- fetchRecipes (lit "&" ++ queryString) ;;
    match data with
    | Some d =>
        match Raw.hits d with
        | Some hits =>
            fetchedRecipes <- lift (mapC mapHit (firstn 100 hits)) ;;
            _ <- Recipe_insertMany fetchedRecipes ;;
            ret (inr fetchedRecipes)
        | None => ret (inl notFound)
        end
    | None => ret (inl notFound)
    end
  else ret (inr recipes).

(** Lines 92 to 97. *)
Definition sample (recipes : list Recipe) : M Response :=
  shuffledRecipes <-
    sort (fun _ _ => r <- Math_random ;; ret (0.5 - r)%float) recipes ;;
  let selectedRecipes := firstn 12 shuffledRecipes in
  ret (Json 200 (Recipes selectedRecipes)).

Definition getRecipes (req : Request) : M Response :=
  try_catch
    (working <- reconcile req ;;
     match working with
     | inl early => ret early
     | inr recipes => sample recipes
     end)
    (fun _ => ret internalError).

End Gateways.

(** ** The [/print] route (lines 107 to 149) *)

(** A record of the request body: any property may be missing. *)
Module Submitted.

Record recipe : Type := {
  title : option jsstring;
  caloriesPerServing : option number;
  servingSize : option number;
  dietLabels : option (list jsstring);
  healthLabels : option (list jsstring);
  ingredients : option (list jsstring)
}.

End Submitted.

Record PrintRequest : Type := {
  body_recipes : option (list Submitted.recipe)     (* [req.body.recipes] *)
}.

(** The calls made on the PDF document, in order. *)
Inductive op : Type :=
| fontSize (n : nat)
| text (t : option jsstring) (continued : bool)
| moveDown (lines : number)
| font (name : jsstring)
| list_ (items : option (list jsstring)).

Inductive PrintResult : Type :=
| Replied (r : Response)
    (* a JSON reply; no document was created *)
| Streamed (headers : list (jsstring * jsstring)) (ops : list op) (ended : bool).
    (* the PDF stream piped to the response; [ended] is false when an
       exception stopped the handler before [doc.end()] *)

Section Print.

(** [Number.prototype.toFixed(2)] and the string conversion of a template
    literal are the engine's. *)
Variable toFixed2 : number -> jsstring.
Variable toString : option number -> jsstring.

(** The body of the [forEach] callback: the calls made, and whether it
    came to its end.  Reading [toFixed] or [join] of a missing property
    raises, and so does the library's [list] when it is handed no array:
    that call is then the last one made. *)
Definition renderRecipe (recipe : Submitted.recipe) : list op * bool :=
  let head :=
    [fontSize 25; text (Submitted.title recipe) false;
     text (Some (lit " ")) false;
     fontSize 16; text (Some (lit "Nutrition")) false;
     moveDown 0.2%float; fontSize 12] in
  match Submitted.caloriesPerServing recipe with
  | None => (head, false)
  | Some calories =>
      let nutrition :=
        [text (Some (lit "    Calories: " ++ toFixed2 calories ++ lit " kcal/serving")) false;
         moveDown 0.2%float;
         text (Some (lit "    Serving Size: " ++ toString (Submitted.servingSize recipe))) false;
         moveDown 1.5%float;
         fontSize 16; text (Some (lit "Diet and Health Information")) false;
         moveDown 0.5%float;
         font (lit "Helvetica-Bold"); fontSize 12;
         text (Some (lit "    Diet Labels: ")) true;
         font (lit "Helvetica")] in
      match Submitted.dietLabels recipe with
      | None => (head ++ nutrition, false)
      | Some diet =>
          let labels :=
            [text (Some (join (lit ", ") diet)) false;
             moveDown 0.5%float;
             font (lit "Helvetica-Bold");
             text (Some (lit "    Health Labels: ")) true;
             font (lit "Helvetica")] in
          match Submitted.healthLabels recipe with
          | None => (head ++ nutrition ++ labels, false)
          | Some health =>
              let heading :=
                [text (Some (join (lit ", ") health)) false;
                 text (Some (lit " ")) false;
                 fontSize 16; text (Some (lit "Ingredients")) false;
                 moveDown 0.5%float;
                 fontSize 12] in
              match Submitted.ingredients recipe with
              | None =>
                  (head ++ nutrition ++ labels ++ heading ++ [list_ None], false)
              | Some lines =>
                  (head ++ nutrition ++ labels ++ heading ++
                   [list_ (Some lines); moveDown 4%float],
                   true)
              end
          end
      end
  end.

(** [recipes.forEach(...)]: stops at the first exception. *)
Fixpoint renderAll (recipes : list Submitted.recipe) : list op * bool :=
  match recipes with
  | [] => ([], true)
  | r :: rest =>
      match renderRecipe r with
      | (ops, false) => (ops, false)
      | (ops, true) =>
          let (more, ok) := renderAll rest in (ops ++ more, ok)
      end
  end.

Definition pdfHeaders : list (jsstring * jsstring) :=
  [(lit "Content-Type", lit "application/pdf");
   (lit "Content-Disposition",
    lit "attachment; filename=" ++ [34] ++ lit "recipes.pdf" ++ [34])].

Definition badRequest : Response := Json 400 (Error (lit "No recipes provided")).

Definition postPrint (req : PrintRequest) : PrintResult :=
  match body_recipes req with
  | None => Replied badRequest
  | Some [] => Replied badRequest
  | Some recipes =>
      let (ops, ended) := renderAll recipes in
      Streamed pdfHeaders ops ended
  end.

End Print.

(** What a result carries of the document: its drawing calls. *)
Definition documentOf (r : PrintResult) : option (list op) :=
  match r with
  | Replied _ => None
  | Streamed _ ops _ => Some ops
  end.

(** ** Observers used in the statements *)

(** The tokens a parameter supplies: none when it is absent or the empty
    string, one for a string, the elements for an array. *)
Definition tokens (p : param) : list jsstring :=
  match p with
  | Absent => []
  | Single [] => []
  | Single s => [s]
  | Many l => l
  end.

(** The query of line 47 and the argument of line 56, as [reconcile]
    computes them from the request. *)
Definition storeQuery (req : Request) : Query :=
  buildQuery (criteriaArray (orEmptyArray (query_diet req)))
             (criteriaArray (orEmptyArray (query_health req))).

Definition providerQueryString (req : Request) : completion jsstring :=
  match buildQueryString
          (map toLowerCase (criteriaArray (orEmptyArray (query_diet req))))
          (map toLowerCase (criteriaArray (orEmptyArray (query_health req)))) with
  | Normal queryString => Normal (lit "&" ++ queryString)
  | Throw x => Throw x
  end.

(** The world once a provider call has been logged. *)
Definition logged (queryString : jsstring) (w : World) : World :=
  {| store := store w; inserts := inserts w;
     calls := calls w ++ [queryString]; draws := draws w |}.

(** Well-formed UTF-16: every high surrogate is followed by a low one, and
    no low surrogate stands alone.  The query parser delivers such strings. *)
Fixpoint wellFormedFrom (pending : bool) (s : jsstring) : bool :=
  match s with
  | [] => negb pending
  | c :: r =>
      if pending then is_low c && wellFormedFrom false r
      else if is_high c then wellFormedFrom true r
      else if is_low c then false
      else wellFormedFrom false r
  end.

Definition wellFormed (s : jsstring) : bool := wellFormedFrom false s.

Definition pendingFlag (pending : option N) : bool :=
  match pending with
  | Some _ => true
  | None => false
  end.

Definition wellFormedRequest (req : Request) : Prop :=
  Forall (fun t => wellFormed t = true) (tokens (query_diet req)) /\
  Forall (fun t => wellFormed t = true) (tokens (query_health req)).

(** Strings of Basic Latin (ASCII) units. *)
Definition isAscii (s : jsstring) : bool := forallb (fun c => c <? 128) s.

Definition asciiRequest (req : Request) : Prop :=
  Forall (fun t => isAscii t = true) (tokens (query_diet req)) /\
  Forall (fun t => isAscii t = true) (tokens (query_health req)).

(** The case mapping of a Basic Latin unit.  On ASCII strings
    [toUpperCase] and [toLowerCase] apply it unit by unit (lemmas
    [toUpperCase_units] and [toLowerCase_units]). *)
Definition upperAscii (c : N) : list N :=
  if (97 <=? c) && (c <=? 122) then [c - 32] else [c].

Definition lowerAscii (c : N) : N :=
  if (65 <=? c) && (c <=? 90) then c + 32 else c.

Definition upperUnits (s : jsstring) : jsstring := flat_map upperAscii s.
Definition lowerUnits (s : jsstring) : jsstring := map lowerAscii s.

(** [capitalizeWords] with the unit-by-unit mappings. *)
Definition capitalizeUnits (str : jsstring) : jsstring :=
  join [hyphen]
       (map (fun word => upperUnits (charAt0 word) ++ lowerUnits (slice1 word))
            (split hyphen str)).

(** [capitalizeWords] on an ASCII token, read unit by unit: [start] says
    that the unit comes first in its hyphen-segment. *)
Fixpoint capitalizeFrom (start : bool) (s : jsstring) : jsstring :=
  match s with
  | [] => []
  | c :: r =>
      if c =? hyphen then hyphen :: capitalizeFrom true r
      else (if start then upperAscii c else [lowerAscii c]) ++ capitalizeFrom false r
  end.

Definition is_surrogate (c : N) : bool := is_high c || is_low c.

(** What the well-formedness of the case mappings rests on: no run of a
    case table touches the surrogate range, on either side. *)
Definition clearOfSurrogates (lo hi : N) : bool := (hi <? 55296) || (57343 <? lo).

Definition safeRange (e : N * N * N * N) : bool :=
  let '(lo, hi, _, target) := e in
  (lo <=? hi) && clearOfSurrogates lo hi && clearOfSurrogates target (target + (hi - lo)).

Definition safeSpecial (e : N * list N) : bool :=
  negb (is_surrogate (fst e)) && forallb (fun x => negb (is_surrogate x)) (snd e).

(** On the 128 ASCII code points the tables are the two ASCII ranges. *)
Definition tablesAgree (c : N) : bool :=
  streq (upperPoint c) (upperAscii c) && streq (lowerPoint c) [lowerAscii c]
  && negb (c =? sigma) && streq (units c) [c] && negb (is_high c).

(** An effect that always completes and leaves the store, the insert log
    and the provider log alone. *)
Definition quiet {A} (m : M A) : Prop :=
  forall w, exists a w',
    m w = (Normal a, w') /\
    store w' = store w /\ inserts w' = inserts w /\ calls w' = calls w.

(** ** Sample data

    Concrete requests, provider answers and stores on which the handlers
    are run below. *)
Module Sample.

(** A complete hit, titled by the letter number [n]. *)
Definition hit (n : N) : Raw.hit :=
  {| Raw.recipe_of := Some
       {| Raw.label := Some [65 + n];
          Raw.image := Some (lit "https://img.example/1.jpg");
          Raw.source := Some (lit "Example Kitchen");
          Raw.url := Some (lit "https://example.org/recipe");
          Raw.dietLabels := Some [lit "balanced"];
          Raw.healthLabels := Some [lit "vegan"; lit "peanut-free"];
          Raw.ingredientLines := Some [lit "1 cup rice"];
          Raw.yield := Some 4%float;
          Raw.calories := Some 800%float;
          Raw.totalTime := Some 30%float;
          Raw.cuisineType := Some [lit "italian"];
          Raw.mealType := None;
          Raw.dishType := None;
          Raw.totalNutrients := None |} |}.

(** The same hit without [yield]. *)
Definition recipeWithoutYield : Raw.recipe :=
  {| Raw.label := Some (lit "Soup");
     Raw.image := None; Raw.source := None; Raw.url := None;
     Raw.dietLabels := Some [lit "balanced"];
     Raw.healthLabels := Some [];
     Raw.ingredientLines := None;
     Raw.yield := None;
     Raw.calories := Some 500%float;
     Raw.totalTime := None;
     Raw.cuisineType := None; Raw.mealType := None; Raw.dishType := None;
     Raw.totalNutrients := None |}.

Definition hitWithoutYield : Raw.hit :=
  {| Raw.recipe_of := Some recipeWithoutYield |}.

(** A hit whose recipe has no [dietLabels]. *)
Definition recipeWithoutDietLabels : Raw.recipe :=
  {| Raw.label := Some (lit "Stew");
     Raw.image := None; Raw.source := None; Raw.url := None;
     Raw.dietLabels := None;
     Raw.healthLabels := Some [];
     Raw.ingredientLines := None;
     Raw.yield := Some 2%float;
     Raw.calories := Some 500%float;
     Raw.totalTime := None;
     Raw.cuisineType := None; Raw.mealType := None; Raw.dishType := None;
     Raw.totalNutrients := None |}.

Definition hitWithoutDietLabels : Raw.hit :=
  {| Raw.recipe_of := Some recipeWithoutDietLabels |}.

(** A stored record, as a previous fallback left it. *)
Definition stored (n : N) : Recipe :=
  {| _id := Some n; __v := Some 0;
     title := Some [65 + n]; image := None;
     source := lit "Unknown"; instructionsUrl := lit "No URL available";
     dietLabels := [lit "Balanced"]; healthLabels := [lit "Vegan"];
     ingredients := []; servingSize := Some 2%float;
     caloriesPerServing := Some 250%float; totalTime := None;
     cuisineType := []; mealType := []; dishType := [];
     totalNutrients := [] |}.

Definition decimals13 : list N := [0; 1; 2; 3; 4; 5; 6; 7; 8; 9; 10; 11; 12].

Definition coin (n : nat) : number :=
  if Nat.even n then 0.25%float else 0.75%float.

(** A provider that answers every query with [answer]. *)
Definition env (answer : option Raw.data) : Env :=
  {| provider := fun _ => Normal answer;
     reachable := true;
     accepts := fun _ => true;
     random := coin |}.

Definition thirteenHits : option Raw.data :=
  Some {| Raw.hits := Some (map hit decimals13) |}.

Definition noHits : option Raw.data := Some {| Raw.hits := None |}.

(** A hundred complete hits, then one without [dietLabels]. *)
Definition lateBadHit : option Raw.data :=
  Some {| Raw.hits := Some (repeat (hit 0) 100 ++ [hitWithoutDietLabels]) |}.

Definition earlyBadHit : option Raw.data :=
  Some {| Raw.hits := Some [hit 0; hitWithoutDietLabels; hit 1] |}.

Definition emptyWorld : World :=
  {| store := []; inserts := []; calls := []; draws := 0 |}.

Definition fullWorld : World :=
  {| store := map stored decimals13; inserts := []; calls := []; draws := 0 |}.

(** Three stored records: too few to answer from. *)
Definition sparseWorld : World :=
  {| store := map stored [0; 1; 2]; inserts := []; calls := []; draws := 0 |}.

Definition balanced : Request :=
  {| query_diet := Single (lit "balanced"); query_health := Absent |}.

(** [diet=%C3%9F]: the one-letter token sharp s (U+00DF). *)
Definition sharpS : Request :=
  {| query_diet := Single [223]; query_health := Absent |}.

End Sample.

(** ** The paths of [getRecipes]

    [served env req w out w'] lists the ways through the handler: the
    response [out] it sends from the world [w] and the world [w'] it
    leaves. *)
Inductive served (env : Env) (req : Request) (w : World) : Response -> World -> Prop :=
| served_unreachable :
    reachable env = false ->
    served env req w internalError w
| served_from_store found p w' :
    Recipe_find env (storeQuery req) noIds w = (Normal found, w) ->
    (12 <= length found)%nat ->
    Permutation found p ->
    store w' = store w -> inserts w' = inserts w -> calls w' = calls w ->
    served env req w (Json 200 (Recipes (firstn 12 p))) w'
| served_unencodable found e :
    Recipe_find env (storeQuery req) noIds w = (Normal found, w) ->
    (length found < 12)%nat ->
    providerQueryString req = Throw e ->
    served env req w internalError w
| served_provider_failed found queryString e :
    Recipe_find env (storeQuery req) noIds w = (Normal found, w) ->
    (length found < 12)%nat ->
    providerQueryString req = Normal queryString ->
    provider env queryString = Throw e ->
    served env req w internalError (logged queryString w)
| served_not_found found queryString data :
    Recipe_find env (storeQuery req) noIds w = (Normal found, w) ->
    (length found < 12)%nat ->
    providerQueryString req = Normal queryString ->
    provider env queryString = Normal data ->
    data = None \/ (exists d, data = Some d /\ Raw.hits d = None) ->
    served env req w notFound (logged queryString w)
| served_unmappable found queryString d hits e :
    Recipe_find env (storeQuery req) noIds w = (Normal found, w) ->
    (length found < 12)%nat ->
    providerQueryString req = Normal queryString ->
    provider env queryString = Normal (Some d) ->
    Raw.hits d = Some hits ->
    mapC mapHit (firstn 100 hits) = Throw e ->
    served env req w internalError (logged queryString w)
| served_rejected found queryString d hits fetched :
    Recipe_find env (storeQuery req) noIds w = (Normal found, w) ->
    (length found < 12)%nat ->
    providerQueryString req = Normal queryString ->
    provider env queryString = Normal (Some d) ->
    Raw.hits d = Some hits ->
    mapC mapHit (firstn 100 hits) = Normal fetched ->
    accepts env fetched = false ->
    served env req w internalError
           {| store := store w; inserts := inserts w ++ [fetched];
              calls := calls w ++ [queryString]; draws := draws w |}
| served_fetched found queryString d hits fetched p w' :
    Recipe_find env (storeQuery req) noIds w = (Normal found, w) ->
    (length found < 12)%nat ->
    providerQueryString req = Normal queryString ->
    provider env queryString = Normal (Some d) ->
    Raw.hits d = Some hits ->
    mapC mapHit (firstn 100 hits) = Normal fetched ->
    accepts env fetched = true ->
    Permutation fetched p ->
    store w' = store w ++ persisted (N.of_nat (length (store w))) fetched ->
    inserts w' = inserts w ++ [fetched] ->
    calls w' = calls w ++ [queryString] ->
    served env req w (Json 200 (Recipes (firstn 12 p))) w'.

(** ** Letter case of ASCII units *)

Definition isLowerLetter (c : N) : bool := (97 <=? c) && (c <=? 122).
Definition isUpperLetter (c : N) : bool := (65 <=? c) && (c <=? 90).

(** A hyphen-segment in store form: no lowercase letter first, no uppercase
    letter after. *)
Definition titleCased (segment : jsstring) : Prop :=
  match segment with
  | [] => True
  | c :: r => isLowerLetter c = false /\ Forall (fun d => isUpperLetter d = false) r
  end.

(** ** Recipes of a print request *)

(** The properties the [forEach] callback reads a method of. *)
Definition printable (recipe : Submitted.recipe) : bool :=
  match Submitted.caloriesPerServing recipe,
        Submitted.dietLabels recipe,
        Submitted.healthLabels recipe with
  | Some _, Some _, Some _ => true
  | _, _, _ => false
  end.

(** A recipe the callback goes through to its end: it also has the
    ingredient list that the PDF library iterates over. *)
Definition renderable (recipe : Submitted.recipe) : bool :=
  printable recipe &&
  match Submitted.ingredients recipe with
  | Some _ => true
  | None => false
  end.

(** A recipe that hands no [undefined] to the PDF library at all: it also
    has a title and an ingredient list. *)
Definition complete (recipe : Submitted.recipe) : bool :=
  printable recipe &&
  match Submitted.title recipe, Submitted.ingredients recipe with
  | Some _, Some _ => true
  | _, _ => false
  end.

(** Recipes of a print request to run the route on. *)
Module Printed.

Definition soup : Submitted.recipe :=
  {| Submitted.title := Some (lit "Soup");
     Submitted.caloriesPerServing := Some 250%float;
     Submitted.servingSize := Some 2%float;
     Submitted.dietLabels := Some [lit "Balanced"];
     Submitted.healthLabels := Some [lit "Vegan"; lit "Peanut-Free"];
     Submitted.ingredients := Some [lit "1 onion"; lit "2 carrots"] |}.

(** A record as the controller maps a hit without [calories]. *)
Definition uncounted : Submitted.recipe :=
  {| Submitted.title := Some (lit "Stew");
     Submitted.caloriesPerServing := None;
     Submitted.servingSize := Some 2%float;
     Submitted.dietLabels := Some [];
     Submitted.healthLabels := Some [];
     Submitted.ingredients := Some [] |}.

(** The soup without its ingredient list. *)
Definition unlisted : Submitted.recipe :=
  {| Submitted.title := Some (lit "Soup");
     Submitted.caloriesPerServing := Some 250%float;
     Submitted.servingSize := Some 2%float;
     Submitted.dietLabels := Some [lit "Balanced"];
     Submitted.healthLabels := Some [lit "Vegan"; lit "Peanut-Free"];
     Submitted.ingredients := None |}.

Definition toFixed2 (x : number) : jsstring := lit "250.00".
Definition toString (x : option number) : jsstring := lit "2".

End Printed.

(** ** The first handler ([src/unnamed/part_000])

    An earlier [getRecipes]: no filters and no store lookup; it fetches,
    maps the first ten hits, stores them and returns them all. *)
Module Basic.

(** The shape of lines 18 to 32. *)
Record Recipe : Type := {
  title : option jsstring;
  image : option jsstring;
  source : jsstring;
  instructionsUrl : jsstring;
  dietLabels : list jsstring;
  healthLabels : list jsstring;
  ingredients : list jsstring;
  calories : number;
  totalTime : number;
  cuisineType : list jsstring;
  mealType : list jsstring;
  dishType : list jsstring;
  totalNutrients : nutrients
}.

(** [x || 0] on a number: [undefined], both zeros and NaN are falsy. *)
Definition orZero (x : option number) : number :=
  match x with
  | None => 0%float
  | Some v => if PrimFloat.is_nan v || PrimFloat.is_zero v then 0%float else v
  end.

(** The callback of lines 18 to 32.  Only reading a property of an absent
    [hit.recipe] raises. *)
Definition mapHit (hit : Raw.hit) : completion Recipe :=
  match Raw.recipe_of hit with
  | None => Throw TypeError
  | Some r =>
      Normal
        {| title := Raw.label r;
           image := Raw.image r;
           source := orString (Raw.source r) (lit "Unknown");
           instructionsUrl := orString (Raw.url r) (lit "No URL available");
           dietLabels := orEmpty (Raw.dietLabels r);
           healthLabels := orEmpty (Raw.healthLabels r);
           ingredients := orEmpty (Raw.ingredientLines r);
           calories := orZero (Raw.calories r);
           totalTime := orZero (Raw.totalTime r);
           cuisineType := orEmpty (Raw.cuisineType r);
           mealType := orEmpty (Raw.mealType r);
           dishType := orEmpty (Raw.dishType r);
           totalNutrients := orEmpty (Raw.totalNutrients r) |}
  end.

Inductive body : Type :=
| Recipes (l : list Recipe)
| Error (message : jsstring).

Inductive Response : Type :=
| Json (status : nat) (b : body).

Record World : Type := {
  store : list Recipe;            (* the persisted collection *)
  inserts : list (list Recipe);   (* batches handed to [insertMany] so far *)
  calls : nat                     (* calls of [fetchRecipes()] so far *)
}.

(** Modelled from the spec: the missing [fetchRecipes] and [insertMany], as
    for the controller (sections 4.3 and 4.4): [answer] is what
    [fetchRecipes()] resolves to or raises, [accepts] whether the store
    takes a batch. *)
Record Env : Type := {
  answer : completion (option Raw.data);
  accepts : list Recipe -> bool
}.

Definition getRecipes (env : Env) (w : World) : Response * World :=
  let called := {| store := store w; inserts := inserts w; calls := S (calls w) |} in
  match answer env with
  | Throw _ => (Json 500 (Error (lit "Internal Server Error")), called)
  | Normal None => (Json 404 (Error (lit "No recipes found")), called)
  | Normal (Some data) =>
      match Raw.hits data with
      | None => (Json 404 (Error (lit "No recipes found")), called)
      | Some hits =>
          match mapC mapHit (firstn 10 hits) with
          | Throw _ => (Json 500 (Error (lit "Internal Server Error")), called)
          | Normal recipes =>
              if accepts env recipes
              then (Json 200 (Recipes recipes),
                    {| store := store w ++ recipes;
                       inserts := inserts w ++ [recipes];
                       calls := S (calls w) |})
              else (Json 500 (Error (lit "Internal Server Error")),
                    {| store := store w;
                       inserts := inserts w ++ [recipes];
                       calls := S (calls w) |})
          end
      end
  end.

End Basic.

(** * Properties *)

(** ** The string built-ins *)

(** Comparisons of code units: settle those the context decides, split on
    the others. *)
Ltac settle_one :=
  match goal with
  | |- context [N.leb ?a ?b] =>
      first [ rewrite (proj2 (N.leb_le a b)) by lia
            | rewrite (proj2 (N.leb_gt a b)) by lia ]
  | |- context [N.ltb ?a ?b] =>
      first [ rewrite (proj2 (N.ltb_lt a b)) by lia
            | rewrite (proj2 (N.ltb_ge a b)) by lia ]
  | |- context [N.eqb ?a ?b] =>
      first [ rewrite (proj2 (N.eqb_eq a b)) by lia
            | rewrite (proj2 (N.eqb_neq a b)) by lia ]
  end.

Ltac split_one :=
  match goal with
  | |- context [N.leb ?a ?b] => destruct (N.leb_spec a b)
  | |- context [N.ltb ?a ?b] => destruct (N.ltb_spec a b)
  | |- context [N.eqb ?a ?b] => destruct (N.eqb_spec a b)
  end.

Ltac settle_comparisons :=
  repeat first [ settle_one; cbn [andb orb negb] | split_one ].

Ltac unit_cases :=
  settle_comparisons;
  simpl; try discriminate; try reflexivity; try lia; try (f_equal; lia).

Lemma split_not_nil (sep : N) (s : jsstring) : split sep s <> [].
Proof.
  destruct s as [|c r]; simpl; [discriminate|].
  destruct (c =? sep); [discriminate|].
  destruct (split sep r); discriminate.
Qed.

Lemma join_head_app (sep x y : jsstring) (rest : list jsstring) :
  join sep ((x ++ y) :: rest) = x ++ join sep (y :: rest).
Proof.
  destruct rest; simpl; [reflexivity|].
  now rewrite <- app_assoc.
Qed.

Lemma streq_eq (a b : jsstring) : streq a b = true <-> a = b.
Proof.
  unfold streq. destruct (list_eq_dec N.eq_dec a b); split; congruence.
Qed.

(** *** Unit by unit *)

(** [capitalizeUnits] goes through the string once, upper-casing the first
    unit of a segment and lower-casing the others. *)
Lemma capitalize_segments (s : jsstring) :
  capitalizeUnits s = capitalizeFrom true s /\
  match split hyphen s with
  | w :: ws =>
      join [hyphen]
           (lowerUnits w ::
            map (fun word => upperUnits (charAt0 word) ++ lowerUnits (slice1 word)) ws)
  | [] => []
  end = capitalizeFrom false s.
Proof.
  unfold capitalizeUnits.
  set (f := fun word => upperUnits (charAt0 word) ++ lowerUnits (slice1 word)).
  induction s as [|c r [IHt IHf]]; [split; reflexivity|].
  pose proof (split_not_nil hyphen r) as Hne.
  cbn [split capitalizeFrom].
  destruct (c =? hyphen) eqn:Ec.
  - destruct (split hyphen r) as [|w ws] eqn:Er; [congruence|].
    rewrite <- IHt. split; reflexivity.
  - destruct (split hyphen r) as [|w ws] eqn:Er; [congruence|].
    rewrite <- IHf. split.
    + cbn [map]. unfold f at 1. cbn [charAt0 slice1 tl upperUnits flat_map].
      rewrite app_nil_r. apply join_head_app.
    + change (lowerUnits (c :: w)) with ([lowerAscii c] ++ lowerUnits w).
      apply join_head_app.
Qed.

Lemma capitalizeUnits_from (s : jsstring) :
  capitalizeUnits s = capitalizeFrom true s.
Proof. apply capitalize_segments. Qed.

(** *** Surrogates *)

Lemma surrogate_range (c : N) :
  is_surrogate c = true -> 55296 <= c <= 57343.
Proof.
  unfold is_surrogate, is_high, is_low. intros H.
  apply orb_true_iff in H. destruct H as [H|H];
    apply andb_true_iff in H; destruct H as [A B];
    apply N.leb_le in A, B; lia.
Qed.

Lemma small_not_surrogate (c : N) : c < 55296 -> is_surrogate c = false.
Proof.
  intros H. unfold is_surrogate, is_high, is_low. unit_cases.
Qed.

Lemma large_not_surrogate (c : N) : 57343 < c -> is_surrogate c = false.
Proof.
  intros H. unfold is_surrogate, is_high, is_low. unit_cases.
Qed.

Lemma not_surrogate (c : N) :
  is_surrogate c = false -> is_high c = false /\ is_low c = false.
Proof. unfold is_surrogate. apply orb_false_iff. Qed.

(** *** ASCII strings *)

Lemma upperAscii_ascii (c : N) :
  c < 128 -> c <> hyphen ->
  exists u, upperAscii c = [u] /\ u < 128 /\ u <> hyphen /\
            upperAscii u = [u] /\ lowerAscii u = lowerAscii c.
Proof.
  intros Hc Hh. unfold hyphen in *.
  destruct (N.le_gt_cases 97 c) as [Hlo|Hlo];
    [destruct (N.le_gt_cases c 122) as [Hhi|Hhi]|].
  - exists (c - 32). unfold upperAscii, lowerAscii. repeat split; unit_cases.
  - exists c. unfold upperAscii, lowerAscii. repeat split; unit_cases.
  - exists c. unfold upperAscii, lowerAscii. repeat split; unit_cases.
Qed.

Lemma lowerAscii_ascii (c : N) :
  c < 128 -> c <> hyphen ->
  lowerAscii c < 128 /\ lowerAscii c <> hyphen /\
  lowerAscii (lowerAscii c) = lowerAscii c.
Proof.
  intros Hc Hh. unfold hyphen in *.
  destruct (N.le_gt_cases 65 c) as [Hlo|Hlo];
    [destruct (N.le_gt_cases c 90) as [Hhi|Hhi]|];
    unfold lowerAscii; repeat split; unit_cases.
Qed.

Lemma lowerAscii_below (c : N) : c < 128 -> lowerAscii c < 128.
Proof.
  intros Hc. destruct (N.le_gt_cases c 90) as [Hhi|Hhi];
    unfold lowerAscii; unit_cases.
Qed.

Lemma upperAscii_below (c : N) :
  c < 128 -> forallb (fun x => x <? 128) (upperAscii c) = true.
Proof.
  intros Hc. unfold upperAscii.
  destruct ((97 <=? c) && (c <=? 122)); cbn [forallb]; rewrite andb_true_r;
    apply N.ltb_lt; lia.
Qed.

Lemma isAscii_cons (c : N) (s : jsstring) :
  isAscii (c :: s) = true <-> c < 128 /\ isAscii s = true.
Proof.
  unfold isAscii. simpl. rewrite andb_true_iff, N.ltb_lt. reflexivity.
Qed.

Lemma isAscii_app (a b : jsstring) :
  isAscii (a ++ b) = true <-> isAscii a = true /\ isAscii b = true.
Proof. unfold isAscii. rewrite forallb_app. apply andb_true_iff. Qed.

Lemma capitalizeFrom_idempotent (s : jsstring) :
  isAscii s = true ->
  forall start, capitalizeFrom start (capitalizeFrom start s) = capitalizeFrom start s.
Proof.
  induction s as [|c r IH]; intros Ha start; [reflexivity|].
  apply isAscii_cons in Ha. destruct Ha as [Hc Hr].
  simpl. destruct (N.eqb_spec c hyphen) as [->|Hh].
  - simpl. now rewrite IH.
  - destruct start.
    + destruct (upperAscii_ascii Hc Hh) as (u & Hu & Hu128 & Huh & Huu & _).
      rewrite Hu. simpl.
      destruct (N.eqb_spec u hyphen); [contradiction|].
      rewrite Huu. simpl. now rewrite IH.
    + destruct (lowerAscii_ascii Hc Hh) as (Hl & Hlh & Hll).
      simpl. destruct (N.eqb_spec (lowerAscii c) hyphen); [contradiction|].
      rewrite Hll. simpl. now rewrite IH.
Qed.

Lemma capitalizeFrom_ascii (s : jsstring) :
  isAscii s = true -> forall start, isAscii (capitalizeFrom start s) = true.
Proof.
  induction s as [|c r IH]; intros Ha start; [reflexivity|].
  apply isAscii_cons in Ha. destruct Ha as [Hc Hr].
  cbn [capitalizeFrom]. destruct (c =? hyphen).
  - apply isAscii_cons. split; [reflexivity|auto].
  - apply isAscii_app. split; [|auto].
    destruct start; [now apply upperAscii_below|].
    apply isAscii_cons. split; [now apply lowerAscii_below|reflexivity].
Qed.

Lemma lowerUnits_of_capitalizeFrom (s : jsstring) :
  isAscii s = true ->
  forall start, lowerUnits (capitalizeFrom start s) = lowerUnits s.
Proof.
  induction s as [|c r IH]; intros Ha start; [reflexivity|].
  apply isAscii_cons in Ha. destruct Ha as [Hc Hr].
  simpl. destruct (N.eqb_spec c hyphen) as [->|Hh].
  - simpl. f_equal. now apply IH.
  - unfold lowerUnits in *. rewrite map_app, IH by assumption.
    destruct start.
    + destruct (upperAscii_ascii Hc Hh) as (u & Hu & _ & _ & _ & Hlu).
      rewrite Hu. simpl. now rewrite Hlu.
    + destruct (lowerAscii_ascii Hc Hh) as (_ & _ & Hll).
      simpl. now rewrite Hll.
Qed.

Lemma lowerUnits_ascii (s : jsstring) :
  isAscii s = true -> isAscii (lowerUnits s) = true.
Proof.
  induction s as [|c r IH]; intros Ha; [reflexivity|].
  apply isAscii_cons in Ha. destruct Ha as [Hc Hr].
  change (lowerUnits (c :: r)) with (lowerAscii c :: lowerUnits r).
  apply isAscii_cons. split; [now apply lowerAscii_below|auto].
Qed.

Lemma upperUnits_ascii (s : jsstring) :
  isAscii s = true -> isAscii (upperUnits s) = true.
Proof.
  induction s as [|c r IH]; intros Ha; [reflexivity|].
  apply isAscii_cons in Ha. destruct Ha as [Hc Hr].
  change (upperUnits (c :: r)) with (upperAscii c ++ upperUnits r).
  apply isAscii_app. split; [now apply upperAscii_below|auto].
Qed.

(** *** The case tables on ASCII *)

Lemma below_128 (P : N -> bool) :
  forallb P (map N.of_nat (seq 0 128)) = true ->
  forall c, c < 128 -> P c = true.
Proof.
  intros H c Hc. rewrite forallb_forall in H. apply H.
  apply in_map_iff. exists (N.to_nat c). split; [apply N2Nat.id|].
  apply in_seq. lia.
Qed.

Lemma tables_on_ascii (c : N) :
  c < 128 ->
  upperPoint c = upperAscii c /\ lowerPoint c = [lowerAscii c] /\
  (c =? sigma) = false /\ units c = [c] /\ is_high c = false.
Proof.
  intros Hc.
  assert (H : tablesAgree c = true).
  { revert c Hc. apply below_128. vm_compute. reflexivity. }
  unfold tablesAgree in H.
  repeat (apply andb_true_iff in H; destruct H as [H ?]).
  repeat split; try (now apply streq_eq);
    now apply negb_true_iff.
Qed.

Lemma codePoints_ascii (s : jsstring) :
  isAscii s = true -> codePoints s = s.
Proof.
  induction s as [|c r IH]; intros Ha; [reflexivity|].
  apply isAscii_cons in Ha. destruct Ha as [Hc Hr].
  destruct (tables_on_ascii Hc) as (_ & _ & _ & _ & Hh).
  cbn [codePoints]. rewrite Hh. now rewrite IH.
Qed.

Lemma units_ascii (s : jsstring) :
  isAscii s = true -> flat_map units s = s.
Proof.
  induction s as [|c r IH]; intros Ha; [reflexivity|].
  apply isAscii_cons in Ha. destruct Ha as [Hc Hr].
  destruct (tables_on_ascii Hc) as (_ & _ & _ & Hu & _).
  cbn [flat_map]. now rewrite Hu, IH.
Qed.

Lemma lowerFrom_ascii (s : jsstring) :
  isAscii s = true -> forall after, lowerFrom after s = lowerUnits s.
Proof.
  induction s as [|c r IH]; intros Ha after; [reflexivity|].
  apply isAscii_cons in Ha. destruct Ha as [Hc Hr].
  destruct (tables_on_ascii Hc) as (_ & Hl & Hs & _ & _).
  cbn [lowerFrom]. rewrite Hs, Hl, IH by assumption. reflexivity.
Qed.

Lemma upperPoints_ascii (s : jsstring) :
  isAscii s = true -> flat_map upperPoint s = upperUnits s.
Proof.
  induction s as [|c r IH]; intros Ha; [reflexivity|].
  apply isAscii_cons in Ha. destruct Ha as [Hc Hr].
  destruct (tables_on_ascii Hc) as (Hu & _).
  cbn [flat_map]. rewrite Hu, IH by assumption. reflexivity.
Qed.

(** On ASCII strings the built-ins work unit by unit. *)
Lemma toLowerCase_units (s : jsstring) :
  isAscii s = true -> toLowerCase s = lowerUnits s.
Proof.
  intros Ha. unfold toLowerCase.
  rewrite codePoints_ascii, lowerFrom_ascii by assumption.
  apply units_ascii. now apply lowerUnits_ascii.
Qed.

Lemma toUpperCase_units (s : jsstring) :
  isAscii s = true -> toUpperCase s = upperUnits s.
Proof.
  intros Ha. unfold toUpperCase.
  rewrite codePoints_ascii, upperPoints_ascii by assumption.
  apply units_ascii. now apply upperUnits_ascii.
Qed.

Lemma split_ascii (s : jsstring) :
  isAscii s = true ->
  Forall (fun word => isAscii word = true) (split hyphen s).
Proof.
  induction s as [|c r IH]; intros Ha; [repeat constructor|].
  apply isAscii_cons in Ha. destruct Ha as [Hc Hr].
  specialize (IH Hr). cbn [split].
  destruct (c =? hyphen); [constructor; [reflexivity|assumption]|].
  destruct (split hyphen r) as [|w ws].
  - repeat constructor. apply isAscii_cons. now split.
  - inversion IH; subst. constructor; [|assumption].
    apply isAscii_cons. now split.
Qed.

Lemma capitalizeWords_table (s : jsstring) :
  isAscii s = true -> capitalizeWords s = capitalizeUnits s.
Proof.
  intros Ha. unfold capitalizeWords, capitalizeUnits. f_equal.
  apply map_ext_in. intros w Hw.
  pose proof (split_ascii s Ha) as Hs. rewrite Forall_forall in Hs.
  specialize (Hs w Hw).
  rewrite toUpperCase_units, toLowerCase_units; [reflexivity| |].
  - destruct w as [|c r]; [reflexivity|].
    apply isAscii_cons in Hs. apply Hs.
  - destruct w as [|c r]; [reflexivity|].
    apply isAscii_cons in Hs. apply isAscii_cons. split; [apply Hs|reflexivity].
Qed.

(** [capitalizeWords] on an ASCII string is the single pass
    [capitalizeFrom true]. *)
Lemma capitalizeWords_units (s : jsstring) :
  isAscii s = true -> capitalizeWords s = capitalizeFrom true s.
Proof.
  intros Ha. rewrite capitalizeWords_table by assumption.
  apply capitalizeUnits_from.
Qed.

Lemma lower_of_capitalizeFrom (s : jsstring) :
  isAscii s = true ->
  forall start, toLowerCase (capitalizeFrom start s) = toLowerCase s.
Proof.
  intros Ha start.
  rewrite !toLowerCase_units by (try apply capitalizeFrom_ascii; assumption).
  now apply lowerUnits_of_capitalizeFrom.
Qed.

Lemma toLowerCase_ascii (s : jsstring) :
  isAscii s = true -> isAscii (toLowerCase s) = true.
Proof.
  intros Ha. rewrite toLowerCase_units by assumption.
  now apply lowerUnits_ascii.
Qed.
Lemma encode_ascii (s : jsstring) :
  isAscii s = true ->
  encodeURIComponent s = Normal (flat_map escapePoint s).
Proof.
  unfold encodeURIComponent.
  induction s as [|c r IH]; intros Ha; [reflexivity|].
  apply isAscii_cons in Ha. destruct Ha as [Hc Hr].
  simpl. rewrite (IH Hr).
  assert (is_surrogate c = false) as Hs by (apply small_not_surrogate; lia).
  apply not_surrogate in Hs. destruct Hs as [-> ->].
  reflexivity.
Qed.

Lemma escape_unreserved (s : jsstring) :
  forallb unreserved s = true -> flat_map escapePoint s = s.
Proof.
  induction s as [|c r IH]; simpl; [reflexivity|].
  intros H. apply andb_true_iff in H. destruct H as [Hc Hr].
  unfold escapePoint at 1. rewrite Hc. simpl. now rewrite IH.
Qed.

(** *** Well-formed strings *)
(** *** Well-formed strings *)

(** The case tables keep away from the surrogates: no surrogate has a
    mapping and no mapping yields one. *)
Lemma clear_not_surrogate (lo hi x : N) :
  clearOfSurrogates lo hi = true -> lo <= x <= hi -> is_surrogate x = false.
Proof.
  unfold clearOfSurrogates. intros H Hx.
  apply orb_true_iff in H. destruct H as [H|H]; apply N.ltb_lt in H.
  - apply small_not_surrogate. lia.
  - apply large_not_surrogate. lia.
Qed.

Lemma mapped_safe (table : list (N * N * N * N)) (cp u : N) :
  forallb safeRange table = true ->
  mapped table cp = Some u ->
  is_surrogate cp = false /\ is_surrogate u = false.
Proof.
  induction table as [|[[[lo hi] stride] target] rest IH]; [discriminate|].
  cbn [forallb mapped]. intros Hs Hm.
  apply andb_true_iff in Hs. destruct Hs as [He Hrest].
  destruct (inCaseRange (lo, hi, stride, target) cp) eqn:Ein; [|now apply IH].
  injection Hm as <-.
  unfold inCaseRange in Ein. unfold safeRange in He.
  apply andb_true_iff in Ein. destruct Ein as [Ein _].
  apply andb_true_iff in Ein. destruct Ein as [Hlo Hhi].
  apply andb_true_iff in He. destruct He as [He Htarget].
  apply andb_true_iff in He. destruct He as [_ Hsource].
  apply N.leb_le in Hlo, Hhi.
  split.
  - apply (@clear_not_surrogate lo hi _ Hsource). lia.
  - apply (@clear_not_surrogate target (target + (hi - lo)) _ Htarget). lia.
Qed.

Lemma special_safe (table : list (N * list N)) (cp : N) (image : list N) :
  forallb safeSpecial table = true ->
  special table cp = Some image ->
  is_surrogate cp = false /\ Forall (fun x => is_surrogate x = false) image.
Proof.
  induction table as [|[key img] rest IH]; [discriminate|].
  cbn [forallb special]. intros Hs Hm.
  apply andb_true_iff in Hs. destruct Hs as [He Hrest].
  destruct (N.eqb_spec cp key) as [->|_]; [|now apply IH].
  injection Hm as <-.
  unfold safeSpecial in He. cbn [fst snd] in He.
  apply andb_true_iff in He. destruct He as [Hk Hi].
  split; [now apply negb_true_iff|].
  apply Forall_forall. intros x Hx.
  rewrite forallb_forall in Hi. apply negb_true_iff. now apply Hi.
Qed.

Lemma tables_safe :
  forallb safeRange upperRanges = true /\
  forallb safeSpecial upperSpecial = true /\
  forallb safeRange lowerRanges = true /\
  forallb safeSpecial lowerSpecial = true.
Proof. vm_compute. repeat split. Qed.

Lemma point_clear (ranges : list (N * N * N * N)) (specials : list (N * list N))
      (cp : N) :
  forallb safeRange ranges = true ->
  forallb safeSpecial specials = true ->
  is_surrogate cp = false ->
  Forall (fun x => is_surrogate x = false)
         match special specials cp with
         | Some image => image
         | None => match mapped ranges cp with
                   | Some u => [u]
                   | None => [cp]
                   end
         end.
Proof.
  intros Hr Hs Hc.
  destruct (special specials cp) as [image|] eqn:Es.
  - now apply (@special_safe _ _ _ Hs Es).
  - destruct (mapped ranges cp) as [u|] eqn:Em.
    + repeat constructor. now apply (@mapped_safe _ _ _ Hr Em).
    + repeat constructor. assumption.
Qed.

Lemma point_surrogate (ranges : list (N * N * N * N)) (specials : list (N * list N))
      (cp : N) :
  forallb safeRange ranges = true ->
  forallb safeSpecial specials = true ->
  is_surrogate cp = true ->
  match special specials cp with
  | Some image => image
  | None => match mapped ranges cp with
            | Some u => [u]
            | None => [cp]
            end
  end = [cp].
Proof.
  intros Hr Hs Hc.
  destruct (special specials cp) as [image|] eqn:Es.
  - destruct (@special_safe _ _ _ Hs Es). congruence.
  - destruct (mapped ranges cp) as [u|] eqn:Em; [|reflexivity].
    destruct (@mapped_safe _ _ _ Hr Em). congruence.
Qed.

Lemma upperPoint_clear (cp : N) :
  is_surrogate cp = false ->
  Forall (fun x => is_surrogate x = false) (upperPoint cp).
Proof. apply point_clear; apply tables_safe. Qed.

Lemma lowerPoint_clear (cp : N) :
  is_surrogate cp = false ->
  Forall (fun x => is_surrogate x = false) (lowerPoint cp).
Proof. apply point_clear; apply tables_safe. Qed.

Lemma upperPoint_surrogate (cp : N) :
  is_surrogate cp = true -> upperPoint cp = [cp].
Proof. apply point_surrogate; apply tables_safe. Qed.

Lemma lowerPoint_surrogate (cp : N) :
  is_surrogate cp = true -> lowerPoint cp = [cp].
Proof. apply point_surrogate; apply tables_safe. Qed.

(** A code point that is no surrogate is written as a unit of its own or
    as a pair. *)
Lemma units_wellFormed (cp : N) (t : jsstring) :
  is_surrogate cp = false ->
  wellFormedFrom false (units cp ++ t) = wellFormedFrom false t.
Proof.
  intros Hc. unfold units.
  destruct ((65536 <=? cp) && (cp <? 1114112)) eqn:E.
  - apply andb_true_iff in E. destruct E as [Hlo Hhi].
    apply N.leb_le in Hlo. apply N.ltb_lt in Hhi.
    assert ((cp - 65536) / 1024 < 1024) as Hq
        by (apply N.Div0.div_lt_upper_bound; lia).
    assert ((cp - 65536) mod 1024 < 1024) as Hm
        by (apply N.mod_upper_bound; lia).
    set (q := (cp - 65536) / 1024) in *.
    set (m := (cp - 65536) mod 1024) in *.
    assert (is_high (55296 + q) = true) as Hh
        by (unfold is_high; apply andb_true_iff; split; apply N.leb_le; lia).
    assert (is_low (56320 + m) = true) as Hl
        by (unfold is_low; apply andb_true_iff; split; apply N.leb_le; lia).
    cbn [app wellFormedFrom]. now rewrite Hh, Hl.
  - apply not_surrogate in Hc. destruct Hc as [Hh Hl].
    cbn [app wellFormedFrom]. now rewrite Hh, Hl.
Qed.

Lemma points_wellFormed (cps : list N) (t : jsstring) :
  Forall (fun x => is_surrogate x = false) cps ->
  wellFormedFrom false (flat_map units cps ++ t) = wellFormedFrom false t.
Proof.
  induction 1 as [|cp rest Hc _ IH]; [reflexivity|].
  cbn [flat_map]. rewrite <- app_assoc.
  now rewrite units_wellFormed.
Qed.

Lemma surrogatePair_clear (hi lo : N) :
  is_surrogate (surrogatePair hi lo) = false.
Proof. apply large_not_surrogate. unfold surrogatePair. lia. Qed.

Lemma codePoints_clear (s : jsstring) :
  (wellFormed s = true ->
   Forall (fun x => is_surrogate x = false) (codePoints s)) /\
  (forall c, wellFormed (c :: s) = true ->
             Forall (fun x => is_surrogate x = false) (codePoints (c :: s))).
Proof.
  unfold wellFormed.
  induction s as [|d r [IH1 IH2]].
  - split; [constructor|]. intros c.
    cbn [wellFormedFrom codePoints].
    destruct (is_high c) eqn:Eh; [discriminate|].
    destruct (is_low c) eqn:El; [discriminate|].
    intros _. repeat constructor. unfold is_surrogate. now rewrite Eh, El.
  - split; [apply IH2|]. intros c.
    cbn [wellFormedFrom codePoints].
    destruct (is_high c) eqn:Eh.
    + intros H. apply andb_true_iff in H. destruct H as [Hd Hr].
      rewrite Hd. constructor; [apply surrogatePair_clear|now apply IH1].
    + destruct (is_low c) eqn:El; [discriminate|].
      intros H. constructor; [|now apply IH2].
      unfold is_surrogate. now rewrite Eh, El.
Qed.

Lemma upperPoints_clear (cps : list N) :
  Forall (fun x => is_surrogate x = false) cps ->
  Forall (fun x => is_surrogate x = false) (flat_map upperPoint cps).
Proof.
  induction 1 as [|cp rest Hc _ IH]; [constructor|].
  cbn [flat_map]. apply Forall_app. split; [now apply upperPoint_clear|assumption].
Qed.

Lemma lowerFrom_clear (cps : list N) :
  Forall (fun x => is_surrogate x = false) cps ->
  forall after, Forall (fun x => is_surrogate x = false) (lowerFrom after cps).
Proof.
  induction 1 as [|cp rest Hc _ IH]; intros after; [constructor|].
  cbn [lowerFrom]. apply Forall_app. split; [|apply IH].
  destruct ((cp =? sigma) && after && negb (casedFollows rest)).
  - repeat constructor.
  - now apply lowerPoint_clear.
Qed.

Lemma toLowerCase_wellFormed (s : jsstring) :
  wellFormed s = true -> wellFormed (toLowerCase s) = true.
Proof.
  intros H. unfold wellFormed, toLowerCase.
  rewrite <- (app_nil_r (flat_map units _)).
  rewrite points_wellFormed; [reflexivity|].
  apply lowerFrom_clear. now apply codePoints_clear.
Qed.

Lemma wellFormed_app (a b : jsstring) :
  forall pending,
    wellFormedFrom pending a = true ->
    wellFormedFrom pending (a ++ b) = wellFormedFrom false b.
Proof.
  induction a as [|c r IH]; intros pending H.
  - destruct pending; [discriminate|reflexivity].
  - cbn [app wellFormedFrom] in *. destruct pending.
    + apply andb_true_iff in H. destruct H as [Hl Hr].
      rewrite Hl. now apply IH.
    + destruct (is_high c); [now apply IH|].
      destruct (is_low c); [discriminate|now apply IH].
Qed.

Lemma split_wellFormed (s : jsstring) :
  forall pending,
    wellFormedFrom pending s = true ->
    match split hyphen s with
    | w :: ws => wellFormedFrom pending w = true /\
                 Forall (fun word => wellFormed word = true) ws
    | [] => False
    end.
Proof.
  unfold wellFormed.
  induction s as [|c r IH]; intros pending H; [split; [assumption|constructor]|].
  cbn [split]. cbn [wellFormedFrom] in H.
  destruct (N.eqb_spec c hyphen) as [->|Hh].
  - destruct pending; [discriminate|]. simpl in H.
    specialize (IH false H).
    destruct (split hyphen r) as [|w ws]; [contradiction|].
    split; [reflexivity|]. constructor; apply IH.
  - destruct pending.
    + apply andb_true_iff in H. destruct H as [Hl Hr].
      specialize (IH false Hr).
      destruct (split hyphen r) as [|w ws]; [contradiction|].
      split; [|apply IH]. cbn [wellFormedFrom]. rewrite Hl. apply IH.
    + destruct (is_high c) eqn:Eh.
      * specialize (IH true H).
        destruct (split hyphen r) as [|w ws]; [contradiction|].
        split; [|apply IH]. cbn [wellFormedFrom]. rewrite Eh. apply IH.
      * destruct (is_low c) eqn:El; [discriminate|].
        specialize (IH false H).
        destruct (split hyphen r) as [|w ws]; [contradiction|].
        split; [|apply IH]. cbn [wellFormedFrom]. rewrite Eh, El. apply IH.
Qed.

Lemma join_wellFormed (ws : list jsstring) :
  Forall (fun word => wellFormed word = true) ws ->
  wellFormed (join [hyphen] ws) = true.
Proof.
  unfold wellFormed.
  induction 1 as [|w rest Hw Hrest IH]; [reflexivity|].
  destruct rest as [|w' rest]; [assumption|].
  change (join [hyphen] (w :: w' :: rest))
    with (w ++ hyphen :: join [hyphen] (w' :: rest)).
  rewrite wellFormed_app by assumption. exact IH.
Qed.

(** One segment of [capitalizeWords]: the first unit is a letter of its
    own, or the high half of a pair that the lower-casing of the rest
    leaves behind it. *)
Lemma segment_wellFormed (word : jsstring) :
  wellFormed word = true ->
  wellFormed (toUpperCase (charAt0 word) ++ toLowerCase (slice1 word)) = true.
Proof.
  destruct word as [|c r]; [reflexivity|].
  unfold wellFormed. cbn [charAt0 slice1 tl wellFormedFrom].
  destruct (is_high c) eqn:Eh.
  - destruct r as [|d r']; [discriminate|].
    cbn [wellFormedFrom]. intros H.
    apply andb_true_iff in H. destruct H as [Hd Hr].
    assert (is_surrogate c = true) as Hc
        by (unfold is_surrogate; now rewrite Eh).
    assert (is_surrogate d = true) as Hsd
        by (unfold is_surrogate; rewrite Hd; apply orb_true_r).
    assert (is_high d = false) as Hhd.
    { unfold is_high, is_low in *. apply andb_true_iff in Hd.
      destruct Hd as [A B]. apply N.leb_le in A.
      apply andb_false_iff. right. apply N.leb_gt. lia. }
    assert (units c = [c] /\ units d = [d]) as [Uc Ud].
    { apply surrogate_range in Hc, Hsd. unfold units.
      rewrite (proj2 (N.leb_gt 65536 c)), (proj2 (N.leb_gt 65536 d)) by lia.
      split; reflexivity. }
    unfold toUpperCase, toLowerCase.
    cbn [codePoints]. rewrite Eh, Hhd.
    cbn [flat_map lowerFrom].
    rewrite (@upperPoint_surrogate c Hc), andb_false_r, (@lowerPoint_surrogate d Hsd).
    cbn [andb app flat_map]. rewrite Uc, Ud.
    cbn [app wellFormedFrom]. rewrite Eh, Hd. cbn [andb].
    rewrite <- (app_nil_r (flat_map units _)).
    rewrite points_wellFormed; [reflexivity|].
    apply lowerFrom_clear. now apply codePoints_clear.
  - destruct (is_low c) eqn:El; [discriminate|]. intros Hr.
    unfold toUpperCase. cbn [codePoints]. rewrite Eh.
    rewrite points_wellFormed.
    + now apply toLowerCase_wellFormed.
    + apply upperPoints_clear. repeat constructor.
      unfold is_surrogate. now rewrite Eh, El.
Qed.

Lemma capitalizeWords_wellFormed (s : jsstring) :
  wellFormed s = true -> wellFormed (capitalizeWords s) = true.
Proof.
  intros H. unfold capitalizeWords.
  apply join_wellFormed, Forall_map.
  pose proof (@split_wellFormed s false H) as Hs.
  destruct (split hyphen s) as [|w ws]; [contradiction|].
  destruct Hs as [Hw Hws].
  constructor; [now apply segment_wellFormed|].
  eapply Forall_impl; [|exact Hws].
  intros word. apply segment_wellFormed.
Qed.

Lemma wellFormed_normalized (t : jsstring) :
  wellFormed t = true -> wellFormed (toLowerCase (capitalizeWords t)) = true.
Proof.
  intros H. now apply toLowerCase_wellFormed, capitalizeWords_wellFormed.
Qed.

Lemma encode_wellFormedFrom (s : jsstring) :
  forall pending,
    wellFormedFrom (pendingFlag pending) s = true ->
    exists e, encodeFrom pending s = Normal e.
Proof.
  induction s as [|c r IH]; intros [hi|]; simpl; intros H;
    try discriminate.
  - eauto.
  - destruct (is_low c); [|discriminate].
    destruct (IH None H) as [e ->]. eauto.
  - destruct (is_high c).
    + exact (IH (Some c) H).
    + destruct (is_low c); [discriminate|].
      destruct (IH None H) as [e ->]. eauto.
Qed.

Lemma encode_wellFormed (s : jsstring) :
  wellFormed s = true -> exists e, encodeURIComponent s = Normal e.
Proof. exact (encode_wellFormedFrom s None). Qed.

(** ** Lists *)

Lemma In_firstn {A} (n : nat) (l : list A) (x : A) :
  In x (firstn n l) -> In x l.
Proof.
  intros H. rewrite <- (firstn_skipn n l). apply in_or_app. now left.
Qed.

(** [mapC] raises as soon as the callback raises on an element. *)
Lemma mapC_raises {A B} (f : A -> completion B) (l : list A) (a : A) :
  In a l -> (exists e, f a = Throw e) -> exists e, mapC f l = Throw e.
Proof.
  induction l as [|b r IH]; intros Hin Hex; [contradiction|].
  simpl. destruct (f b) as [v|e] eqn:Hb; [|eauto].
  destruct Hin as [->|Hin].
  - destruct Hex as [e He]. congruence.
  - destruct (IH Hin Hex) as [e ->]. eauto.
Qed.

(** ** Effects that leave the store and the logs alone *)

Lemma quiet_ret {A} (a : A) : quiet (ret a).
Proof. intros w. exists a, w. auto. Qed.

Lemma quiet_bind {A B} (m : M A) (k : A -> M B) :
  quiet m -> (forall a, quiet (k a)) -> quiet (bind m k).
Proof.
  intros Hm Hk w. unfold bind.
  destruct (Hm w) as (a & w1 & -> & Hs1 & Hi1 & Hc1).
  destruct (Hk a w1) as (b & w2 & -> & Hs2 & Hi2 & Hc2).
  exists b, w2. repeat split; congruence.
Qed.

Lemma quiet_random (env : Env) : quiet (Math_random env).
Proof. intros w. eexists _, _. unfold Math_random. simpl. auto. Qed.

Section SortFacts.

Variable A : Type.
Variable comparefn : A -> A -> M number.
Hypothesis comparefn_quiet : forall x y, quiet (comparefn x y).

Lemma insertSorted_permutes (x : A) (sorted : list A) (w : World) :
  exists p w',
    insertSorted comparefn x sorted w = (Normal p, w') /\
    Permutation (x :: sorted) p /\
    store w' = store w /\ inserts w' = inserts w /\ calls w' = calls w.
Proof.
  revert w. induction sorted as [|y ys IH]; intros w.
  - exists [x], w. simpl. auto.
  - cbn [insertSorted]. unfold bind at 1.
    destruct (comparefn_quiet x y w) as (v & w1 & -> & Hs & Hi & Hc).
    destruct (PrimFloat.ltb v 0).
    + exists (x :: y :: ys), w1. unfold ret. auto.
    + unfold bind.
      destruct (IH w1) as (p & w2 & -> & Hp & Hs2 & Hi2 & Hc2).
      exists (y :: p), w2. unfold ret. repeat split; try congruence.
      rewrite perm_swap. now constructor.
Qed.

Lemma sortInto_permutes (rest sorted : list A) (w : World) :
  exists p w',
    sortInto comparefn sorted rest w = (Normal p, w') /\
    Permutation (sorted ++ rest) p /\
    store w' = store w /\ inserts w' = inserts w /\ calls w' = calls w.
Proof.
  revert sorted w. induction rest as [|x xs IH]; intros sorted w.
  - exists sorted, w. rewrite app_nil_r. simpl. auto.
  - cbn [sortInto]. unfold bind.
    destruct (insertSorted_permutes x sorted w) as (s & w1 & -> & Hp & Hs & Hi & Hc).
    destruct (IH s w1) as (p & w2 & -> & Hp2 & Hs2 & Hi2 & Hc2).
    exists p, w2. repeat split; try congruence.
    rewrite <- Hp2. rewrite <- Permutation_middle.
    exact (Permutation_app_tail xs Hp).
Qed.

Lemma sort_permutes (l : list A) (w : World) :
  exists p w',
    sort comparefn l w = (Normal p, w') /\
    Permutation l p /\
    store w' = store w /\ inserts w' = inserts w /\ calls w' = calls w.
Proof. exact (sortInto_permutes l [] w). Qed.

End SortFacts.

(** Lines 92 to 97 answer with the first twelve of a reordering of
    [recipes], and touch neither the store nor the provider. *)
Lemma sample_run (env : Env) (recipes : list Recipe) (w : World) :
  exists p w',
    sample env recipes w = (Normal (Json 200 (Recipes (firstn 12 p))), w') /\
    Permutation recipes p /\
    store w' = store w /\ inserts w' = inserts w /\ calls w' = calls w.
Proof.
  unfold sample, bind at 1.
  destruct (@sort_permutes Recipe
              (fun _ _ => r <- Math_random env ;; ret (0.5 - r)%float)
              (fun _ _ => @quiet_bind _ _ _ _ (quiet_random env) (fun r => quiet_ret _))
              recipes w)
    as (p & w' & -> & Hp & Hs & Hi & Hc).
  exists p, w'. unfold ret. auto.
Qed.

(** ** The steps of [reconcile] *)

Lemma find_run (env : Env) (q : Query) (p : Projection) (w w1 : World)
      (found : list Recipe) :
  Recipe_find env q p w = (Normal found, w1) ->
  reachable env = true /\ w1 = w /\
  found = map (project p) (filter (matches q) (store w)).
Proof.
  unfold Recipe_find. destruct (reachable env); intros H; inversion H; auto.
Qed.

Lemma find_reachable (env : Env) (q : Query) (p : Projection) (w : World) :
  reachable env = true ->
  Recipe_find env q p w
  = (Normal (map (project p) (filter (matches q) (store w))), w).
Proof. intros H. unfold Recipe_find. now rewrite H. Qed.

Lemma find_unreachable (env : Env) (q : Query) (p : Projection) (w : World) :
  reachable env = false -> Recipe_find env q p w = (Throw ExternalError, w).
Proof. intros H. unfold Recipe_find. now rewrite H. Qed.

Lemma reconcile_run (env : Env) (req : Request) (w : World) :
  reconcile env req w =
  match Recipe_find env (storeQuery req) noIds w with
  | (Throw e, w1) => (Throw e, w1)
  | (Normal found, w1) =>
      if (length found <? 12)%nat then
        match providerQueryString req with
        | Throw e => (Throw e, w1)
        | Normal queryString =>
            match provider env queryString with
            | Throw e => (Throw e, logged queryString w1)
            | Normal None => (Normal (inl notFound), logged queryString w1)
            | Normal (Some d) =>
                match Raw.hits d with
                | None => (Normal (inl notFound), logged queryString w1)
                | Some hits =>
                    match mapC mapHit (firstn 100 hits) with
                    | Throw e => (Throw e, logged queryString w1)
                    | Normal fetched =>
                        match Recipe_insertMany env fetched (logged queryString w1) with
                        | (Normal _, w3) => (Normal (inr fetched), w3)
                        | (Throw e, w3) => (Throw e, w3)
                        end
                    end
                end
            end
        end
      else (Normal (inr found), w1)
  end.
Proof.
  unfold reconcile, providerQueryString, storeQuery, bind.
  destruct (Recipe_find _ _ _ w) as [[found|e] w1]; [|reflexivity].
  destruct (length found <? 12)%nat; [|reflexivity].
  unfold lift.
  destruct (buildQueryString _ _) as [qs|e]; [|reflexivity].
  unfold fetchRecipes. fold (logged (lit "&" ++ qs) w1).
  destruct (provider env (lit "&" ++ qs)) as [[d|]|e]; try reflexivity.
  destruct (Raw.hits d) as [hits|]; [|reflexivity].
  destruct (mapC mapHit (firstn 100 hits)) as [fetched|e]; reflexivity.
Qed.

Lemma getRecipes_run (env : Env) (req : Request) (w : World) :
  getRecipes env req w =
  match reconcile env req w with
  | (Normal (inl early), w1) => (Normal early, w1)
  | (Normal (inr recipes), w1) => sample env recipes w1
  | (Throw _, w1) => (Normal internalError, w1)
  end.
Proof.
  unfold getRecipes, try_catch, bind.
  destruct (reconcile env req w) as [[[early|recipes]|e] w1]; try reflexivity.
  destruct (sample_run env recipes w1) as (p & w2 & -> & _). reflexivity.
Qed.

Lemma criteriaArray_tokens (p : param) :
  criteriaArray (orEmptyArray p) = map capitalizeWords (tokens p).
Proof. destruct p as [|[|c s]|l]; reflexivity. Qed.

Lemma parameters_encode (name : jsstring) (ts : list jsstring) :
  Forall (fun t => wellFormed t = true) ts ->
  exists ps,
    mapC (parameter name) (map toLowerCase (map capitalizeWords ts)) = Normal ps.
Proof.
  induction 1 as [|t ts Ht _ [ps IH]]; simpl; [eauto|].
  unfold parameter at 1.
  destruct (encode_wellFormed _ (wellFormed_normalized t Ht)) as [e ->].
  rewrite IH. eauto.
Qed.

Lemma providerQueryString_wellFormed (req : Request) :
  wellFormedRequest req -> exists qs, providerQueryString req = Normal qs.
Proof.
  intros [Hd Hh]. unfold providerQueryString, buildQueryString.
  rewrite !criteriaArray_tokens.
  destruct (parameters_encode (lit "diet=") Hd) as [ds ->].
  destruct (parameters_encode (lit "health=") Hh) as [hs ->].
  eauto.
Qed.

Lemma insertMany_run (env : Env) (batch : list Recipe) (w : World) :
  exists c w',
    Recipe_insertMany env batch w = (c, w') /\ calls w' = calls w.
Proof.
  unfold Recipe_insertMany. destruct (accepts env batch); eauto.
Qed.

(** The two paths of the handler, once the store has answered. *)
Lemma sufficient_run (env : Env) (req : Request) (w w1 : World) (found : list Recipe) :
  Recipe_find env (storeQuery req) noIds w = (Normal found, w1) ->
  (12 <= length found)%nat ->
  getRecipes env req w = sample env found w.
Proof.
  intros Hfind Hge.
  destruct (find_run _ _ _ _ Hfind) as (_ & -> & _).
  rewrite getRecipes_run, reconcile_run, Hfind.
  destruct (Nat.ltb_spec (length found) 12); [lia|reflexivity].
Qed.

Lemma fallback_run (env : Env) (req : Request) (w w1 : World) (found : list Recipe)
      (queryString : jsstring) :
  Recipe_find env (storeQuery req) noIds w = (Normal found, w1) ->
  (length found < 12)%nat ->
  providerQueryString req = Normal queryString ->
  getRecipes env req w =
  match provider env queryString with
  | Throw _ => (Normal internalError, logged queryString w)
  | Normal None => (Normal notFound, logged queryString w)
  | Normal (Some d) =>
      match Raw.hits d with
      | None => (Normal notFound, logged queryString w)
      | Some hits =>
          match mapC mapHit (firstn 100 hits) with
          | Throw _ => (Normal internalError, logged queryString w)
          | Normal fetched =>
              match Recipe_insertMany env fetched (logged queryString w) with
              | (Normal _, w3) => sample env fetched w3
              | (Throw _, w3) => (Normal internalError, w3)
              end
          end
      end
  end.
Proof.
  intros Hfind Hlt Hqs.
  destruct (find_run _ _ _ _ Hfind) as (_ & -> & _).
  rewrite getRecipes_run, reconcile_run, Hfind, Hqs.
  destruct (Nat.ltb_spec (length found) 12); [|lia].
  destruct (provider env queryString) as [[d|]|e]; try reflexivity.
  destruct (Raw.hits d) as [hits|]; [|reflexivity].
  destruct (mapC mapHit (firstn 100 hits)) as [fetched|e]; [|reflexivity].
  destruct (Recipe_insertMany env fetched (logged queryString w)) as [[u|e] w3];
    reflexivity.
Qed.

(** What the fallback path answers: one provider call is logged, and the
    response is an error or a sample of the mapped hits. *)
Lemma fallback_outcome (env : Env) (req : Request) (w w1 : World)
      (found : list Recipe) (queryString : jsstring) :
  Recipe_find env (storeQuery req) noIds w = (Normal found, w1) ->
  (length found < 12)%nat ->
  providerQueryString req = Normal queryString ->
  exists out w',
    getRecipes env req w = (Normal out, w') /\
    calls w' = calls w ++ [queryString] /\
    ((exists status message, out = Json status (Error message)) \/
     (exists d hits fetched p,
         provider env queryString = Normal (Some d) /\
         Raw.hits d = Some hits /\
         mapC mapHit (firstn 100 hits) = Normal fetched /\
         Permutation fetched p /\
         out = Json 200 (Recipes (firstn 12 p)))).
Proof.
  intros Hfind Hlt Hqs.
  rewrite (fallback_run _ _ _ Hfind Hlt Hqs).
  assert (forall status message w',
             calls w' = calls w ++ [queryString] ->
             exists out w'0,
               (Normal (Json status (Error message)), w') = (Normal out, w'0) /\
               calls w'0 = calls w ++ [queryString] /\
               ((exists status message, out = Json status (Error message)) \/
                (exists d hits fetched p,
                    provider env queryString = Normal (Some d) /\
                    Raw.hits d = Some hits /\
                    mapC mapHit (firstn 100 hits) = Normal fetched /\
                    Permutation fetched p /\
                    out = Json 200 (Recipes (firstn 12 p))))) as failed.
  { intros status message w' Hc. eexists _, _. eauto 7. }
  destruct (provider env queryString) as [[d|]|e] eqn:Hp;
    try (apply failed; reflexivity).
  destruct (Raw.hits d) as [hits|] eqn:Hh;
    try (apply failed; reflexivity).
  destruct (mapC mapHit (firstn 100 hits)) as [fetched|e] eqn:Hm;
    try (apply failed; reflexivity).
  destruct (insertMany_run env fetched (logged queryString w)) as (c & w3 & -> & Hc3).
  destruct c as [u|e]; [|apply failed; exact Hc3].
  destruct (sample_run env fetched w3) as (p & w' & -> & Hperm & _ & _ & Hc).
  eexists _, _. split; [reflexivity|]. split; [rewrite Hc, Hc3; reflexivity|].
  right. exists d, hits, fetched, p. auto.
Qed.

(** The fallback path, outcome by outcome: the provider is called once,
    and its answer decides the response. *)
Lemma fallback_pinned (env : Env) (req : Request) (w w1 : World)
      (found : list Recipe) (queryString : jsstring) :
  Recipe_find env (storeQuery req) noIds w = (Normal found, w1) ->
  (length found < 12)%nat ->
  providerQueryString req = Normal queryString ->
  exists out w',
    getRecipes env req w = (Normal out, w') /\
    calls w' = calls w ++ [queryString] /\
    match provider env queryString with
    | Throw _ => out = internalError
    | Normal None => out = notFound
    | Normal (Some d) =>
        match Raw.hits d with
        | None => out = notFound
        | Some hits =>
            match mapC mapHit (firstn 100 hits) with
            | Throw _ => out = internalError
            | Normal fetched =>
                if accepts env fetched
                then exists p, Permutation fetched p /\
                               out = Json 200 (Recipes (firstn 12 p))
                else out = internalError
            end
        end
    end.
Proof.
  intros Hfind Hlt Hqs.
  rewrite (fallback_run _ _ _ Hfind Hlt Hqs).
  destruct (provider env queryString) as [[d|]|e];
    try (eexists _, _; repeat split; reflexivity).
  destruct (Raw.hits d) as [hits|];
    try (eexists _, _; repeat split; reflexivity).
  destruct (mapC mapHit (firstn 100 hits)) as [fetched|e];
    try (eexists _, _; repeat split; reflexivity).
  unfold Recipe_insertMany.
  destruct (accepts env fetched);
    try (eexists _, _; repeat split; reflexivity).
  match goal with
  | |- context [sample env fetched ?w2] =>
      destruct (sample_run env fetched w2) as (p & w' & -> & Hperm & _ & _ & Hc)
  end.
  eexists _, _. split; [reflexivity|]. split; [exact Hc|].
  exists p. auto.
Qed.


(** ** The claims *)

(** C1.  When the store query returns at least 12 records, the provider is
    not called and the response is the first twelve of a reordering of
    those records.  When it returns fewer than 12, the provider is called
    exactly once and its answer decides the response: 500 when the call
    raises, 404 when the answer has no hits, 500 when a hit cannot be
    mapped or the batch is refused, and otherwise the first twelve of a
    reordering of the mapped hits, with nothing of the store's matches
    merged in. *)
Theorem store_sufficient_or_provider_replaces
        (env : Env) (req : Request) (w w1 : World) (found : list Recipe) :
  wellFormedRequest req ->
  Recipe_find env (storeQuery req) noIds w = (Normal found, w1) ->
  exists out w',
    getRecipes env req w = (Normal out, w') /\
    ((12 <= length found)%nat ->
     calls w' = calls w /\
     exists p, Permutation found p /\ out = Json 200 (Recipes (firstn 12 p))) /\
    ((length found < 12)%nat ->
     exists queryString,
       calls w' = calls w ++ [queryString] /\
       match provider env queryString with
       | Throw _ => out = internalError
       | Normal None => out = notFound
       | Normal (Some d) =>
           match Raw.hits d with
           | None => out = notFound
           | Some hits =>
               match mapC mapHit (firstn 100 hits) with
               | Throw _ => out = internalError
               | Normal fetched =>
                   if accepts env fetched
                   then exists p, Permutation fetched p /\
                                  out = Json 200 (Recipes (firstn 12 p))
                   else out = internalError
               end
           end
       end).
Proof.
  intros Hwf Hfind.
  destruct (Nat.lt_ge_cases (length found) 12) as [Hlt|Hge].
  - destruct (providerQueryString_wellFormed Hwf) as [qs Hqs].
    destruct (fallback_pinned _ _ _ Hfind Hlt Hqs) as (out & w' & Hrun & Hc & Hout).
    exists out, w'. split; [exact Hrun|]. split; [intros; lia|].
    intros _. exists qs. auto.
  - rewrite (sufficient_run _ _ _ Hfind Hge).
    destruct (sample_run env found w) as (p & w' & -> & Hperm & _ & _ & Hc).
    eexists _, _. split; [reflexivity|]. split; [|intros; lia].
    intros _. split; [exact Hc|]. exists p. auto.
Qed.

Lemma store_sufficient_or_provider_replaces_witness :
  (exists out w' p,
      getRecipes (Sample.env Sample.thirteenHits) Sample.balanced Sample.sparseWorld
      = (Normal out, w') /\
      length (calls w') = 1%nat /\
      Permutation
        match mapC mapHit (map Sample.hit Sample.decimals13) with
        | Normal fetched => fetched
        | Throw _ => []
        end p /\
      out = Json 200 (Recipes (firstn 12 p)) /\
      length (firstn 12 p) = 12%nat) /\
  (exists out w' p,
      getRecipes (Sample.env Sample.thirteenHits) Sample.balanced Sample.fullWorld
      = (Normal out, w') /\
      calls w' = [] /\
      Permutation (map (project noIds) (store Sample.fullWorld)) p /\
      out = Json 200 (Recipes (firstn 12 p))).
Proof.
  assert (wellFormedRequest Sample.balanced) as Hwf
      by (split; repeat constructor).
  split.
  - destruct (@store_sufficient_or_provider_replaces
                (Sample.env Sample.thirteenHits) Sample.balanced
                Sample.sparseWorld Sample.sparseWorld
                (map (project noIds) (store Sample.sparseWorld)) Hwf eq_refl)
      as (out & w' & Hrun & _ & Hfallback).
    destruct (Hfallback ltac:(simpl; lia)) as (qs & Hcalls & Hout).
    change (provider (Sample.env Sample.thirteenHits) qs)
      with (Normal Sample.thirteenHits) in Hout.
    cbn [Sample.thirteenHits Raw.hits] in Hout.
    change (firstn 100 (map Sample.hit Sample.decimals13))
      with (map Sample.hit Sample.decimals13) in Hout.
    destruct (mapC mapHit (map Sample.hit Sample.decimals13)) as [fetched|e] eqn:Hm;
      [|discriminate Hm].
    cbn [Sample.env accepts] in Hout. destruct Hout as (p & Hperm & Hout).
    exists out, w', p. split; [exact Hrun|].
    split; [rewrite Hcalls; reflexivity|].
    split; [exact Hperm|]. split; [exact Hout|].
    rewrite length_firstn, <- (Permutation_length Hperm).
    apply (f_equal (fun c => match c with Normal l => length l | Throw _ => 0%nat end))
      in Hm.
    cbn beta iota in Hm. rewrite <- Hm. vm_compute. reflexivity.
  - destruct (@store_sufficient_or_provider_replaces
                (Sample.env Sample.thirteenHits) Sample.balanced
                Sample.fullWorld Sample.fullWorld
                (map (project noIds) (store Sample.fullWorld)) Hwf eq_refl)
      as (out & w' & Hrun & Hstore & _).
    destruct (Hstore ltac:(simpl; lia)) as (Hcalls & p & Hperm & Hout).
    exists out, w', p. auto.
Defined.

(** C2.  On the fallback path, a provider answer without a hits container
    makes the handler reply 404 "No recipes found"; the store is as it was
    and no batch was handed to [insertMany]. *)
Theorem provider_without_hits_is_not_found
        (env : Env) (req : Request) (w w1 : World) (found : list Recipe)
        (queryString : jsstring) (data : option Raw.data) :
  Recipe_find env (storeQuery req) noIds w = (Normal found, w1) ->
  (length found < 12)%nat ->
  providerQueryString req = Normal queryString ->
  provider env queryString = Normal data ->
  data = None \/ (exists d, data = Some d /\ Raw.hits d = None) ->
  exists w',
    getRecipes env req w = (Normal (Json 404 (Error (lit "No recipes found"))), w') /\
    store w' = store w /\ inserts w' = inserts w.
Proof.
  intros Hfind Hlt Hqs Hdata Hnone.
  rewrite (fallback_run _ _ _ Hfind Hlt Hqs), Hdata.
  exists (logged queryString w).
  destruct Hnone as [->|(d & -> & ->)]; auto.
Qed.

Lemma provider_without_hits_is_not_found_witness :
  exists w',
    getRecipes (Sample.env Sample.noHits) Sample.balanced Sample.emptyWorld
    = (Normal (Json 404 (Error (lit "No recipes found"))), w') /\
    store w' = store Sample.emptyWorld /\ inserts w' = inserts Sample.emptyWorld.
Proof.
  apply (@provider_without_hits_is_not_found
           (Sample.env Sample.noHits) Sample.balanced Sample.emptyWorld
           Sample.emptyWorld [] (lit "&diet=balanced&") Sample.noHits).
  - reflexivity.
  - simpl. lia.
  - reflexivity.
  - reflexivity.
  - right. eexists. split; reflexivity.
Defined.

(** C10.  When the store query returns at least 12 records the request
    writes nothing: the store is as it was and no batch was handed to
    [insertMany]. *)
Theorem sufficient_store_is_not_written
        (env : Env) (req : Request) (w w1 : World) (found : list Recipe) :
  Recipe_find env (storeQuery req) noIds w = (Normal found, w1) ->
  (12 <= length found)%nat ->
  exists out w',
    getRecipes env req w = (out, w') /\
    store w' = store w /\ inserts w' = inserts w.
Proof.
  intros Hfind Hge.
  rewrite (sufficient_run _ _ _ Hfind Hge).
  destruct (sample_run env found w) as (p & w' & -> & _ & Hs & Hi & _).
  eauto.
Qed.

Lemma sufficient_store_is_not_written_witness :
  exists out w',
    getRecipes (Sample.env Sample.thirteenHits) Sample.balanced Sample.fullWorld
    = (out, w') /\
    store w' = store Sample.fullWorld /\ inserts w' = inserts Sample.fullWorld.
Proof.
  apply (@sufficient_store_is_not_written
           (Sample.env Sample.thirteenHits) Sample.balanced Sample.fullWorld
           Sample.fullWorld
           (map (project noIds) (store Sample.fullWorld))).
  - reflexivity.
  - simpl. lia.
Defined.

(** C4.  Whatever the working set at line 92 (the store's matches or the
    freshly fetched records), the response is the first twelve records of a
    reordering of it: its size is [min 12] of the working set's size and
    each of its records is in the working set. *)
Theorem response_is_truncated_permutation
        (env : Env) (req : Request) (w w1 : World) (working : list Recipe) :
  reconcile env req w = (Normal (inr working), w1) ->
  exists p w',
    getRecipes env req w = (Normal (Json 200 (Recipes (firstn 12 p))), w') /\
    Permutation working p /\
    length (firstn 12 p) = Nat.min 12 (length working) /\
    Forall (fun r => In r working) (firstn 12 p).
Proof.
  intros Hrec. rewrite getRecipes_run, Hrec.
  destruct (sample_run env working w1) as (p & w' & -> & Hperm & _).
  exists p, w'. split; [reflexivity|]. split; [exact Hperm|]. split.
  - rewrite length_firstn. now rewrite (Permutation_length Hperm).
  - apply Forall_forall. intros r Hr.
    apply (Permutation_in r (Permutation_sym Hperm)).
    exact (In_firstn _ _ _ Hr).
Qed.

Lemma response_is_truncated_permutation_witness :
  exists p w',
    getRecipes (Sample.env Sample.thirteenHits) Sample.balanced Sample.fullWorld
    = (Normal (Json 200 (Recipes (firstn 12 p))), w') /\
    length (firstn 12 p) = 12%nat.
Proof.
  destruct (@response_is_truncated_permutation
              (Sample.env Sample.thirteenHits) Sample.balanced Sample.fullWorld
              Sample.fullWorld
              (map (project noIds) (store Sample.fullWorld)) eq_refl)
    as (p & w' & Hrun & _ & Hlen & _).
  exists p, w'. split; [exact Hrun|exact Hlen].
Defined.

(** C9, as amended.  When one of the first hundred hits has a recipe
    without a [dietLabels] or a [healthLabels] array, mapping that hit
    raises (the [|| []] after the [map] call is never reached), the handler
    replies 500 "Internal Server Error", and the store is as it was: no
    batch was handed to [insertMany]. *)
Theorem early_hit_without_labels_aborts
        (env : Env) (req : Request) (w w1 : World) (found : list Recipe)
        (queryString : jsstring) (d : Raw.data) (hits : list Raw.hit)
        (hit : Raw.hit) (r : Raw.recipe) :
  Recipe_find env (storeQuery req) noIds w = (Normal found, w1) ->
  (length found < 12)%nat ->
  providerQueryString req = Normal queryString ->
  provider env queryString = Normal (Some d) ->
  Raw.hits d = Some hits ->
  In hit (firstn 100 hits) ->
  Raw.recipe_of hit = Some r ->
  Raw.dietLabels r = None \/ Raw.healthLabels r = None ->
  mapHit hit = Throw TypeError /\
  exists w',
    getRecipes env req w
    = (Normal (Json 500 (Error (lit "Internal Server Error"))), w') /\
    store w' = store w /\ inserts w' = inserts w.
Proof.
  intros Hfind Hlt Hqs Hdata Hhits Hin Hr Hlabels.
  assert (mapHit hit = Throw TypeError) as Hthrow.
  { unfold mapHit. rewrite Hr.
    destruct Hlabels as [->| ->]; [reflexivity|].
    destruct (Raw.dietLabels r); reflexivity. }
  split; [exact Hthrow|].
  rewrite (fallback_run _ _ _ Hfind Hlt Hqs), Hdata, Hhits.
  destruct (mapC_raises mapHit _ _ Hin (ex_intro _ TypeError Hthrow)) as [e ->].
  exists (logged queryString w). auto.
Qed.

Lemma early_hit_without_labels_aborts_witness :
  mapHit Sample.hitWithoutDietLabels = Throw TypeError /\
  exists w',
    getRecipes (Sample.env Sample.earlyBadHit) Sample.balanced Sample.emptyWorld
    = (Normal (Json 500 (Error (lit "Internal Server Error"))), w') /\
    store w' = store Sample.emptyWorld /\ inserts w' = inserts Sample.emptyWorld.
Proof.
  refine (@early_hit_without_labels_aborts
            (Sample.env Sample.earlyBadHit) Sample.balanced Sample.emptyWorld
            Sample.emptyWorld [] (lit "&diet=balanced&")
            {| Raw.hits := Some [Sample.hit 0; Sample.hitWithoutDietLabels; Sample.hit 1] |}
            [Sample.hit 0; Sample.hitWithoutDietLabels; Sample.hit 1]
            Sample.hitWithoutDietLabels Sample.recipeWithoutDietLabels
            eq_refl _ eq_refl eq_refl eq_refl _ eq_refl _).
  - simpl. lia.
  - simpl. right. left. reflexivity.
  - left. reflexivity.
Defined.

(** C9 as stated fails for a hit past the first hundred: such a hit is never
    mapped, the request succeeds and a hundred records are stored. *)
Lemma late_hit_without_labels_is_ignored :
  exists hits body w',
    provider (Sample.env Sample.lateBadHit) (lit "&diet=balanced&")
    = Normal (Some {| Raw.hits := Some hits |}) /\
    In Sample.hitWithoutDietLabels hits /\
    Raw.recipe_of Sample.hitWithoutDietLabels = Some Sample.recipeWithoutDietLabels /\
    Raw.dietLabels Sample.recipeWithoutDietLabels = None /\
    getRecipes (Sample.env Sample.lateBadHit) Sample.balanced Sample.emptyWorld
    = (Normal (Json 200 (Recipes body)), w') /\
    length (store w') = 100%nat /\
    store w' <> store Sample.emptyWorld.
Proof.
  exists (repeat (Sample.hit 0) 100 ++ [Sample.hitWithoutDietLabels]).
  eexists _, _. split; [reflexivity|].
  split; [apply in_or_app; right; left; reflexivity|].
  split; [reflexivity|]. split; [reflexivity|].
  split; [vm_compute; reflexivity|].
  split; [vm_compute; reflexivity|].
  discriminate.
Qed.

(** C3: the code fails the claim.  For a hit with [calories] and without
    [yield], line 71 divides by [undefined]: [servingSize] is [null] and
    [caloriesPerServing] is a number, NaN. *)
Theorem absent_yield_gives_nan :
  Raw.recipe_of Sample.hitWithoutYield = Some Sample.recipeWithoutYield /\
  Raw.yield Sample.recipeWithoutYield = None /\
  exists mapped c,
    mapHit Sample.hitWithoutYield = Normal mapped /\
    servingSize mapped = None /\
    caloriesPerServing mapped = Some c /\
    PrimFloat.is_nan c = true.
Proof.
  split; [reflexivity|]. split; [reflexivity|].
  eexists _, _. split; [reflexivity|]. split; [reflexivity|].
  split; reflexivity.
Qed.

(** C8.  A [/print] request whose recipe list is absent or empty is
    answered 400 "No recipes provided", and no document is produced. *)
Theorem empty_print_is_bad_request
        (toFixed2 : number -> jsstring) (toString : option number -> jsstring)
        (req : PrintRequest) :
  body_recipes req = None \/ body_recipes req = Some [] ->
  postPrint toFixed2 toString req
  = Replied (Json 400 (Error (lit "No recipes provided"))) /\
  documentOf (postPrint toFixed2 toString req) = None.
Proof.
  unfold postPrint. intros [-> | ->]; split; reflexivity.
Qed.

Lemma empty_print_is_bad_request_witness :
  postPrint (fun _ => lit "0.00") (fun _ => lit "1") {| body_recipes := Some [] |}
  = Replied (Json 400 (Error (lit "No recipes provided"))) /\
  documentOf (postPrint (fun _ => lit "0.00") (fun _ => lit "1")
                        {| body_recipes := Some [] |}) = None.
Proof.
  apply empty_print_is_bad_request. right. reflexivity.
Defined.

(** C7 as stated fails on the one-letter token sharp s (U+00DF): its
    store form is "SS", whose store form is "Ss". *)
Lemma sharp_s_is_not_idempotent :
  capitalizeWords [223] = lit "SS" /\
  capitalizeWords (capitalizeWords [223]) = lit "Ss" /\
  capitalizeWords (capitalizeWords [223]) <> capitalizeWords [223].
Proof.
  split; [reflexivity|]. split; [reflexivity|]. vm_compute. discriminate.
Qed.

(** C7, as amended.  On tokens of ASCII characters, normalization to store
    form is idempotent. *)
Theorem capitalizeWords_idempotent_ascii (x : jsstring) :
  isAscii x = true ->
  capitalizeWords (capitalizeWords x) = capitalizeWords x.
Proof.
  intros Ha. rewrite (capitalizeWords_units x Ha).
  rewrite (capitalizeWords_units _ (capitalizeFrom_ascii x Ha true)).
  now apply capitalizeFrom_idempotent.
Qed.

Lemma capitalizeWords_idempotent_ascii_witness :
  isAscii (lit "low-cARB") = true /\
  capitalizeWords (capitalizeWords (lit "low-cARB")) = capitalizeWords (lit "low-cARB").
Proof.
  split; [reflexivity|].
  apply capitalizeWords_idempotent_ascii. reflexivity.
Defined.

(** ** The store query *)

Lemma includes_In (labels : list jsstring) (t : jsstring) :
  includes labels t = true <-> In t labels.
Proof.
  unfold includes. rewrite existsb_exists. split.
  - intros (x & Hin & Heq). apply streq_eq in Heq. now subst.
  - intros Hin. exists t. split; [assumption|]. now apply streq_eq.
Qed.



Lemma project_noIds (l : list Recipe) :
  map (project noIds) l = map (with_ids None None) l.
Proof. apply map_ext. reflexivity. Qed.




(** ** The provider query *)

Lemma parameters_ascii (name : jsstring) (ts : list jsstring) :
  Forall (fun t => isAscii t = true) ts ->
  mapC (parameter name) (map toLowerCase (map capitalizeWords ts))
  = Normal (map (app name) (map (fun t => flat_map escapePoint (toLowerCase t)) ts)).
Proof.
  induction 1 as [|t ts Ht _ IH]; [reflexivity|].
  cbn [map mapC]. rewrite IH. unfold parameter.
  rewrite (capitalizeWords_units t Ht), (lower_of_capitalizeFrom t Ht true).
  now rewrite (encode_ascii _ (toLowerCase_ascii t Ht)).
Qed.

Lemma values_ascii (ts : list jsstring) :
  Forall (fun t => isAscii t = true) ts ->
  Forall2 (fun t v =>
             toLowerCase (capitalizeWords t) = toLowerCase t /\
             encodeURIComponent (toLowerCase t) = Normal v /\
             (forallb unreserved (toLowerCase t) = true -> v = toLowerCase t))
          ts (map (fun t => flat_map escapePoint (toLowerCase t)) ts).
Proof.
  induction 1 as [|t ts Ht _ IH]; constructor; [|exact IH].
  split; [|split].
  - rewrite (capitalizeWords_units t Ht). now apply lower_of_capitalizeFrom.
  - apply encode_ascii. now apply toLowerCase_ascii.
  - apply escape_unreserved.
Qed.

(** C6 as stated fails on the token sharp s (U+00DF): its store form is
    "SS", so the provider is asked for [diet=ss], while the lowercase form
    of the token is the token itself, which encodes as [%C3%9F]. *)
Lemma sharp_s_is_sent_as_ss :
  tokens (query_diet Sample.sharpS) = [[223]] /\
  calls (snd (getRecipes (Sample.env Sample.thirteenHits) Sample.sharpS
                         Sample.emptyWorld))
  = [lit "&diet=ss&"] /\
  toLowerCase [223] = [223] /\
  encodeURIComponent (toLowerCase [223]) = Normal (lit "%C3%9F") /\
  toLowerCase (capitalizeWords [223]) <> toLowerCase [223].
Proof.
  split; [reflexivity|]. split; [vm_compute; reflexivity|].
  split; [reflexivity|]. split; [reflexivity|].
  vm_compute. discriminate.
Qed.

(** C6, as amended.  On a fallback whose tokens are ASCII strings, the
    provider is called with "&", one [diet=] parameter per diet token, "&",
    and one [health=] parameter per health token, the parameters joined by
    "&".  The value of a parameter is [encodeURIComponent] of the lowercase
    form of the token as supplied (lower-casing the store form gives the
    same string), which is that lowercase form itself when it has only
    unreserved characters. *)
Theorem provider_query_of_ascii_tokens
        (env : Env) (req : Request) (w w1 : World) (found : list Recipe) :
  asciiRequest req ->
  Recipe_find env (storeQuery req) noIds w = (Normal found, w1) ->
  (length found < 12)%nat ->
  exists dietValues healthValues,
    calls (snd (getRecipes env req w))
    = calls w ++
      [lit "&" ++ join (lit "&") (map (app (lit "diet=")) dietValues)
           ++ lit "&" ++ join (lit "&") (map (app (lit "health=")) healthValues)] /\
    Forall2 (fun t v =>
               toLowerCase (capitalizeWords t) = toLowerCase t /\
               encodeURIComponent (toLowerCase t) = Normal v /\
               (forallb unreserved (toLowerCase t) = true -> v = toLowerCase t))
            (tokens (query_diet req)) dietValues /\
    Forall2 (fun t v =>
               toLowerCase (capitalizeWords t) = toLowerCase t /\
               encodeURIComponent (toLowerCase t) = Normal v /\
               (forallb unreserved (toLowerCase t) = true -> v = toLowerCase t))
            (tokens (query_health req)) healthValues.
Proof.
  intros [Hd Hh] Hfind Hlt.
  exists (map (fun t => flat_map escapePoint (toLowerCase t)) (tokens (query_diet req))),
         (map (fun t => flat_map escapePoint (toLowerCase t)) (tokens (query_health req))).
  split; [|split; now apply values_ascii].
  assert (providerQueryString req
          = Normal (lit "&" ++
                    join (lit "&")
                      (map (app (lit "diet="))
                           (map (fun t => flat_map escapePoint (toLowerCase t))
                                (tokens (query_diet req))))
                    ++ lit "&" ++
                    join (lit "&")
                      (map (app (lit "health="))
                           (map (fun t => flat_map escapePoint (toLowerCase t))
                                (tokens (query_health req)))))) as Hqs.
  { unfold providerQueryString, buildQueryString.
    rewrite !criteriaArray_tokens.
    rewrite (parameters_ascii (lit "diet=") Hd), (parameters_ascii (lit "health=") Hh).
    reflexivity. }
  destruct (fallback_outcome _ _ _ Hfind Hlt Hqs) as (out & w' & -> & Hc & _).
  exact Hc.
Qed.

Lemma provider_query_of_ascii_tokens_witness :
  asciiRequest Sample.balanced /\
  exists dietValues healthValues,
    calls (snd (getRecipes (Sample.env Sample.thirteenHits) Sample.balanced
                           Sample.emptyWorld))
    = calls Sample.emptyWorld ++
      [lit "&" ++ join (lit "&") (map (app (lit "diet=")) dietValues)
           ++ lit "&" ++ join (lit "&") (map (app (lit "health=")) healthValues)] /\
    Forall2 (fun t v =>
               toLowerCase (capitalizeWords t) = toLowerCase t /\
               encodeURIComponent (toLowerCase t) = Normal v /\
               (forallb unreserved (toLowerCase t) = true -> v = toLowerCase t))
            (tokens (query_diet Sample.balanced)) dietValues /\
    Forall2 (fun t v =>
               toLowerCase (capitalizeWords t) = toLowerCase t /\
               encodeURIComponent (toLowerCase t) = Normal v /\
               (forallb unreserved (toLowerCase t) = true -> v = toLowerCase t))
            (tokens (query_health Sample.balanced)) healthValues.
Proof.
  assert (asciiRequest Sample.balanced) as Ha by (split; repeat constructor).
  split; [exact Ha|].
  apply (@provider_query_of_ascii_tokens
           (Sample.env Sample.thirteenHits) Sample.balanced Sample.emptyWorld
           Sample.emptyWorld [] Ha eq_refl).
  simpl. lia.
Defined.

(** * Further properties of the handlers *)

(** ** Every request goes one of the listed ways *)

Lemma getRecipes_served (env : Env) (req : Request) (w : World) :
  exists out w',
    getRecipes env req w = (Normal out, w') /\ served env req w out w'.
Proof.
  rewrite getRecipes_run, reconcile_run.
  destruct (reachable env) eqn:Hr.
  2:{ rewrite (find_unreachable _ _ _ _ Hr).
      eexists _, _. split; [reflexivity|]. now constructor. }
  pose proof (find_reachable env (storeQuery req) noIds w Hr) as Hfind.
  rewrite Hfind.
  set (found := map (project noIds) (filter (matches (storeQuery req)) (store w))) in *.
  destruct (Nat.ltb_spec (length found) 12) as [Hlt|Hge].
  - destruct (providerQueryString req) as [qs|e] eqn:Hqs.
    2:{ eexists _, _. split; [reflexivity|]. eapply served_unencodable; eauto. }
    destruct (provider env qs) as [[d|]|e] eqn:Hp.
    + destruct (Raw.hits d) as [hits|] eqn:Hh.
      * destruct (mapC mapHit (firstn 100 hits)) as [fetched|e] eqn:Hm.
        -- unfold Recipe_insertMany. cbn [logged store inserts calls draws].
           destruct (accepts env fetched) eqn:Ha.
           ++ match goal with
              | |- context [sample env fetched ?w2] =>
                  destruct (sample_run env fetched w2)
                  as (p & w' & -> & Hperm & Hs & Hi & Hc)
              end.
              eexists _, _. split; [reflexivity|].
              eapply served_fetched; eauto.
           ++ eexists _, _. split; [reflexivity|].
              eapply served_rejected; eauto.
        -- eexists _, _. split; [reflexivity|]. eapply served_unmappable; eauto.
      * eexists _, _. split; [reflexivity|].
        eapply served_not_found; eauto.
    + eexists _, _. split; [reflexivity|]. eapply served_not_found; eauto.
    + eexists _, _. split; [reflexivity|]. eapply served_provider_failed; eauto.
  - destruct (sample_run env found w) as (p & w' & -> & Hperm & Hs & Hi & Hc).
    eexists _, _. split; [reflexivity|]. eapply served_from_store; eauto.
Qed.

Lemma mapC_length {A B} (f : A -> completion B) (l : list A) (bs : list B) :
  mapC f l = Normal bs -> length bs = length l.
Proof.
  revert bs. induction l as [|a r IH]; simpl; intros bs H.
  - injection H as <-. reflexivity.
  - destruct (f a) as [b|e]; [|discriminate].
    destruct (mapC f r) as [bs'|e]; [|discriminate].
    injection H as <-. simpl. now rewrite (IH bs').
Qed.

Lemma mapC_Forall2 {A B} (f : A -> completion B) (l : list A) (bs : list B) :
  mapC f l = Normal bs -> Forall2 (fun a b => f a = Normal b) l bs.
Proof.
  revert bs. induction l as [|a r IH]; simpl; intros bs H.
  - injection H as <-. constructor.
  - destruct (f a) as [b|e] eqn:Hb; [|discriminate].
    destruct (mapC f r) as [bs'|e]; [|discriminate].
    injection H as <-. constructor; auto.
Qed.

Lemma mapC_Forall {A B} (f : A -> completion B) (P : B -> Prop)
      (l : list A) (bs : list B) :
  (forall a b, f a = Normal b -> P b) ->
  mapC f l = Normal bs -> Forall P bs.
Proof.
  intros HP H. apply mapC_Forall2 in H.
  induction H; constructor; eauto.
Qed.

Lemma mapHit_fresh (hit : Raw.hit) (r : Recipe) :
  mapHit hit = Normal r -> _id r = None /\ __v r = None.
Proof.
  unfold mapHit. destruct (Raw.recipe_of hit) as [raw|]; [|discriminate].
  destruct (Raw.dietLabels raw); [|discriminate].
  destruct (Raw.healthLabels raw); [|discriminate].
  intros H. injection H as <-. split; reflexivity.
Qed.

(** X1.  [getRecipes] always answers and never lets an exception out: the
    reply is 200 with a list of records, 404 "No recipes found" or 500
    "Internal Server Error". *)
Theorem getRecipes_always_responds (env : Env) (req : Request) (w : World) :
  exists status b w',
    getRecipes env req w = (Normal (Json status b), w') /\
    ((status = 200%nat /\ exists l, b = Recipes l) \/
     (status = 404%nat /\ b = Error (lit "No recipes found")) \/
     (status = 500%nat /\ b = Error (lit "Internal Server Error"))).
Proof.
  destruct (getRecipes_served env req w) as (out & w' & Hrun & Hs).
  destruct Hs; (eexists _, _, _; split; [exact Hrun|]);
    solve [ left; eauto | right; left; auto | right; right; auto ].
Qed.

(** X2.  A list of records in a reply has at most 12 records, and none of
    them carries [_id] or [__v], whether it came from the store or from the
    provider. *)
Theorem reply_has_at_most_twelve_bare_records
        (env : Env) (req : Request) (w w' : World) (status : nat)
        (l : list Recipe) :
  getRecipes env req w = (Normal (Json status (Recipes l)), w') ->
  (length l <= 12)%nat /\ Forall (fun r => _id r = None /\ __v r = None) l.
Proof.
  intros Hrun.
  destruct (getRecipes_served env req w) as (out & w0 & Hrun0 & Hs).
  rewrite Hrun in Hrun0. injection Hrun0 as <- <-.
  assert (forall working p,
             Forall (fun r => _id r = None /\ __v r = None) working ->
             Permutation working p ->
             (length (firstn 12 p) <= 12)%nat /\
             Forall (fun r => _id r = None /\ __v r = None) (firstn 12 p)) as bare.
  { intros working p Hall Hperm. split; [apply firstn_le_length|].
    apply Forall_forall. intros r Hr. apply In_firstn in Hr.
    apply (Permutation_in r (Permutation_sym Hperm)) in Hr.
    revert r Hr. now apply Forall_forall. }
  inversion Hs; subst; try discriminate.
  - apply (bare found); [|assumption].
    match goal with H : Recipe_find _ _ _ _ = _ |- _ =>
      destruct (find_run _ _ _ _ H) as (_ & _ & ->) end.
    apply Forall_forall. intros r Hr. apply in_map_iff in Hr.
    destruct Hr as (d & <- & _). split; reflexivity.
  - apply (bare fetched); [|assumption].
    eapply mapC_Forall; [|eassumption]. exact mapHit_fresh.
Qed.

Lemma reply_has_at_most_twelve_bare_records_witness :
  exists l w',
    getRecipes (Sample.env Sample.thirteenHits) Sample.balanced Sample.emptyWorld
    = (Normal (Json 200 (Recipes l)), w') /\
    (length l <= 12)%nat /\ Forall (fun r => _id r = None /\ __v r = None) l.
Proof.
  eexists _, _.
  refine ((fun Hrun => conj Hrun (reply_has_at_most_twelve_bare_records _ _ _ Hrun)) _).
  vm_compute. reflexivity.
Defined.

(** ** Failures *)

(** X3.  When the store cannot be reached, the handler replies 500 at once:
    the provider is not called and nothing is written. *)
Theorem unreachable_store_is_internal_error
        (env : Env) (req : Request) (w : World) :
  reachable env = false ->
  getRecipes env req w
  = (Normal (Json 500 (Error (lit "Internal Server Error"))), w).
Proof.
  intros Hr. rewrite getRecipes_run, reconcile_run.
  now rewrite (find_unreachable _ _ _ _ Hr).
Qed.

Lemma unreachable_store_is_internal_error_witness :
  getRecipes {| provider := fun _ => Normal Sample.thirteenHits;
                reachable := false;
                accepts := fun _ => true;
                random := Sample.coin |}
             Sample.balanced Sample.fullWorld
  = (Normal (Json 500 (Error (lit "Internal Server Error"))), Sample.fullWorld).
Proof.
  apply unreachable_store_is_internal_error. reflexivity.
Defined.

(** X4.  When the provider call raises on the fallback path, the handler
    replies 500; the store is as it was and no batch was handed to
    [insertMany]. *)
Theorem provider_exception_is_internal_error
        (env : Env) (req : Request) (w w1 : World) (found : list Recipe)
        (queryString : jsstring) (e : exn) :
  Recipe_find env (storeQuery req) noIds w = (Normal found, w1) ->
  (length found < 12)%nat ->
  providerQueryString req = Normal queryString ->
  provider env queryString = Throw e ->
  exists w',
    getRecipes env req w
    = (Normal (Json 500 (Error (lit "Internal Server Error"))), w') /\
    store w' = store w /\ inserts w' = inserts w /\
    calls w' = calls w ++ [queryString].
Proof.
  intros Hfind Hlt Hqs Hp.
  rewrite (fallback_run _ _ _ Hfind Hlt Hqs), Hp.
  exists (logged queryString w). auto.
Qed.

Lemma provider_exception_is_internal_error_witness :
  exists w',
    getRecipes {| provider := fun _ => Throw ExternalError;
                  reachable := true;
                  accepts := fun _ => true;
                  random := Sample.coin |}
               Sample.balanced Sample.emptyWorld
    = (Normal (Json 500 (Error (lit "Internal Server Error"))), w') /\
    store w' = store Sample.emptyWorld /\ inserts w' = inserts Sample.emptyWorld /\
    calls w' = calls Sample.emptyWorld ++ [lit "&diet=balanced&"].
Proof.
  apply (@provider_exception_is_internal_error
           {| provider := fun _ => Throw ExternalError;
              reachable := true;
              accepts := fun _ => true;
              random := Sample.coin |}
           Sample.balanced Sample.emptyWorld Sample.emptyWorld []
           (lit "&diet=balanced&") ExternalError).
  - reflexivity.
  - simpl. lia.
  - reflexivity.
  - reflexivity.
Defined.

(** X5.  When [insertMany] refuses the mapped batch, the handler replies
    500 and returns no record: the batch was handed over once, and the
    store is as it was. *)
Theorem rejected_batch_is_internal_error
        (env : Env) (req : Request) (w w1 : World) (found : list Recipe)
        (queryString : jsstring) (d : Raw.data) (hits : list Raw.hit)
        (fetched : list Recipe) :
  Recipe_find env (storeQuery req) noIds w = (Normal found, w1) ->
  (length found < 12)%nat ->
  providerQueryString req = Normal queryString ->
  provider env queryString = Normal (Some d) ->
  Raw.hits d = Some hits ->
  mapC mapHit (firstn 100 hits) = Normal fetched ->
  accepts env fetched = false ->
  exists w',
    getRecipes env req w
    = (Normal (Json 500 (Error (lit "Internal Server Error"))), w') /\
    store w' = store w /\ inserts w' = inserts w ++ [fetched].
Proof.
  intros Hfind Hlt Hqs Hp Hh Hm Ha.
  rewrite (fallback_run _ _ _ Hfind Hlt Hqs), Hp, Hh, Hm.
  unfold Recipe_insertMany. rewrite Ha.
  eexists. split; [reflexivity|]. split; reflexivity.
Qed.

Lemma rejected_batch_is_internal_error_witness :
  exists w',
    getRecipes {| provider := fun _ => Normal Sample.thirteenHits;
                  reachable := true;
                  accepts := fun _ => false;
                  random := Sample.coin |}
               Sample.balanced Sample.emptyWorld
    = (Normal (Json 500 (Error (lit "Internal Server Error"))), w') /\
    store w' = store Sample.emptyWorld /\
    length (inserts w') = 1%nat.
Proof.
  destruct (@rejected_batch_is_internal_error
              {| provider := fun _ => Normal Sample.thirteenHits;
                 reachable := true;
                 accepts := fun _ => false;
                 random := Sample.coin |}
              Sample.balanced Sample.emptyWorld Sample.emptyWorld []
              (lit "&diet=balanced&")
              {| Raw.hits := Some (map Sample.hit Sample.decimals13) |}
              (map Sample.hit Sample.decimals13)
              (match mapC mapHit (firstn 100 (map Sample.hit Sample.decimals13)) with
               | Normal fetched => fetched
               | Throw _ => []
               end)
              eq_refl ltac:(simpl; lia) eq_refl eq_refl eq_refl
              ltac:(vm_compute; reflexivity) eq_refl)
    as (w' & Hrun & Hs & Hi).
  exists w'. split; [exact Hrun|]. split; [exact Hs|].
  rewrite Hi. reflexivity.
Defined.

(** X6.  When a hit among the first hundred has no [recipe] object, reading
    its label raises: the handler replies 500 and stores nothing. *)
Theorem hit_without_recipe_aborts
        (env : Env) (req : Request) (w w1 : World) (found : list Recipe)
        (queryString : jsstring) (d : Raw.data) (hits : list Raw.hit)
        (hit : Raw.hit) :
  Recipe_find env (storeQuery req) noIds w = (Normal found, w1) ->
  (length found < 12)%nat ->
  providerQueryString req = Normal queryString ->
  provider env queryString = Normal (Some d) ->
  Raw.hits d = Some hits ->
  In hit (firstn 100 hits) ->
  Raw.recipe_of hit = None ->
  exists w',
    getRecipes env req w
    = (Normal (Json 500 (Error (lit "Internal Server Error"))), w') /\
    store w' = store w /\ inserts w' = inserts w.
Proof.
  intros Hfind Hlt Hqs Hdata Hhits Hin Hr.
  assert (mapHit hit = Throw TypeError) as Hthrow
      by (unfold mapHit; now rewrite Hr).
  rewrite (fallback_run _ _ _ Hfind Hlt Hqs), Hdata, Hhits.
  destruct (mapC_raises mapHit _ _ Hin (ex_intro _ TypeError Hthrow)) as [e ->].
  exists (logged queryString w). auto.
Qed.

Lemma hit_without_recipe_aborts_witness :
  exists w',
    getRecipes (Sample.env (Some {| Raw.hits :=
                                      Some [Sample.hit 0; {| Raw.recipe_of := None |}] |}))
               Sample.balanced Sample.emptyWorld
    = (Normal (Json 500 (Error (lit "Internal Server Error"))), w') /\
    store w' = store Sample.emptyWorld /\ inserts w' = inserts Sample.emptyWorld.
Proof.
  refine (@hit_without_recipe_aborts
            (Sample.env (Some {| Raw.hits :=
                                   Some [Sample.hit 0; {| Raw.recipe_of := None |}] |}))
            Sample.balanced Sample.emptyWorld Sample.emptyWorld []
            (lit "&diet=balanced&")
            {| Raw.hits := Some [Sample.hit 0; {| Raw.recipe_of := None |}] |}
            [Sample.hit 0; {| Raw.recipe_of := None |}]
            {| Raw.recipe_of := None |}
            eq_refl _ eq_refl eq_refl eq_refl _ eq_refl).
  - simpl. lia.
  - simpl. right. left. reflexivity.
Defined.

(** ** What a request does to the store *)

Lemma persisted_length (next : N) (batch : list Recipe) :
  length (persisted next batch) = length batch.
Proof.
  revert next. induction batch as [|r rest IH]; intros next; simpl; auto.
Qed.

Lemma filter_persisted (q : Query) (batch : list Recipe) :
  forall next,
    length (filter (matches q) (persisted next batch))
    = length (filter (matches q) batch).
Proof.
  induction batch as [|r rest IH]; intros next; [reflexivity|].
  cbn [persisted filter].
  change (matches q (with_ids (Some next) (Some 0) r)) with (matches q r).
  destruct (matches q r); simpl; now rewrite IH.
Qed.

Lemma persisted_matches (q : Query) (batch : list Recipe) :
  forall next,
    map (with_ids None None) (filter (matches q) (persisted next batch))
    = map (with_ids None None) (filter (matches q) batch).
Proof.
  induction batch as [|r rest IH]; intros next; [reflexivity|].
  cbn [persisted filter].
  change (matches q (with_ids (Some next) (Some 0) r)) with (matches q r).
  destruct (matches q r); cbn [map]; now rewrite IH.
Qed.

(** The world a successful fallback leaves. *)
Lemma fallback_success_run
      (env : Env) (req : Request) (w w1 : World) (found : list Recipe)
      (queryString : jsstring) (d : Raw.data) (hits : list Raw.hit)
      (fetched : list Recipe) :
  Recipe_find env (storeQuery req) noIds w = (Normal found, w1) ->
  (length found < 12)%nat ->
  providerQueryString req = Normal queryString ->
  provider env queryString = Normal (Some d) ->
  Raw.hits d = Some hits ->
  mapC mapHit (firstn 100 hits) = Normal fetched ->
  accepts env fetched = true ->
  exists p w',
    getRecipes env req w = (Normal (Json 200 (Recipes (firstn 12 p))), w') /\
    Permutation fetched p /\
    store w' = store w ++ persisted (N.of_nat (length (store w))) fetched.
Proof.
  intros Hfind Hlt Hqs Hp Hh Hm Ha.
  rewrite (fallback_run _ _ _ Hfind Hlt Hqs), Hp, Hh, Hm.
  unfold Recipe_insertMany. rewrite Ha. cbn [logged store inserts calls draws].
  match goal with
  | |- context [sample env fetched ?w2] =>
      destruct (sample_run env fetched w2) as (p & w' & -> & Hperm & Hs & _)
  end.
  cbn [store] in Hs. exists p, w'. auto.
Qed.

(** X7.  A successful fallback stores every mapped hit, up to a hundred,
    after the records already there, while the reply holds at most twelve
    of them. *)
Theorem fallback_stores_every_mapped_hit
        (env : Env) (req : Request) (w w1 : World) (found : list Recipe)
        (queryString : jsstring) (d : Raw.data) (hits : list Raw.hit)
        (fetched : list Recipe) :
  Recipe_find env (storeQuery req) noIds w = (Normal found, w1) ->
  (length found < 12)%nat ->
  providerQueryString req = Normal queryString ->
  provider env queryString = Normal (Some d) ->
  Raw.hits d = Some hits ->
  mapC mapHit (firstn 100 hits) = Normal fetched ->
  accepts env fetched = true ->
  exists p w',
    getRecipes env req w = (Normal (Json 200 (Recipes (firstn 12 p))), w') /\
    Permutation fetched p /\
    store w' = store w ++ persisted (N.of_nat (length (store w))) fetched /\
    length (store w') = (length (store w) + Nat.min 100 (length hits))%nat /\
    length (firstn 12 p) = Nat.min 12 (length hits).
Proof.
  intros Hfind Hlt Hqs Hp Hh Hm Ha.
  destruct (fallback_success_run _ _ _ Hfind Hlt Hqs Hp Hh Hm Ha)
    as (p & w' & -> & Hperm & Hs).
  assert (length fetched = Nat.min 100 (length hits)) as Hlen
      by (rewrite (mapC_length _ _ Hm); apply length_firstn).
  exists p, w'. split; [reflexivity|]. split; [exact Hperm|].
  split; [exact Hs|]. split.
  - rewrite Hs, length_app, persisted_length, Hlen. reflexivity.
  - rewrite length_firstn, <- (Permutation_length Hperm), Hlen. lia.
Qed.

Lemma fallback_stores_every_mapped_hit_witness :
  exists p w',
    getRecipes (Sample.env Sample.thirteenHits) Sample.balanced Sample.emptyWorld
    = (Normal (Json 200 (Recipes (firstn 12 p))), w') /\
    length (store w') = 13%nat /\ length (firstn 12 p) = 12%nat.
Proof.
  destruct (@fallback_stores_every_mapped_hit
              (Sample.env Sample.thirteenHits) Sample.balanced Sample.emptyWorld
              Sample.emptyWorld [] (lit "&diet=balanced&")
              {| Raw.hits := Some (map Sample.hit Sample.decimals13) |}
              (map Sample.hit Sample.decimals13)
              (match mapC mapHit (firstn 100 (map Sample.hit Sample.decimals13)) with
               | Normal fetched => fetched
               | Throw _ => []
               end)
              eq_refl ltac:(simpl; lia) eq_refl eq_refl eq_refl
              ltac:(vm_compute; reflexivity) eq_refl)
    as (p & w' & Hrun & _ & _ & Hstore & Hlen).
  exists p, w'. split; [exact Hrun|]. split; [exact Hstore|exact Hlen].
Defined.

(** X8.  No request removes or changes a stored record: the store after a
    request is the store before followed by at most a hundred new records,
    and by none when the reply is an error. *)
Theorem store_only_grows (env : Env) (req : Request) (w : World) :
  exists out w' added,
    getRecipes env req w = (Normal out, w') /\
    store w' = store w ++ added /\
    (length added <= 100)%nat /\
    (forall status message, out = Json status (Error message) -> added = []).
Proof.
  destruct (getRecipes_served env req w) as (out & w' & Hrun & Hs).
  assert (forall w0, store w0 = store w ->
                     exists added,
                       getRecipes env req w = (Normal out, w') /\
                       store w0 = store w ++ added /\
                       (length added <= 100)%nat /\
                       (forall status message,
                           out = Json status (Error message) -> added = []))
    as unchanged.
  { intros w0 H0. exists []. rewrite app_nil_r.
    repeat split; auto. simpl. lia. }
  exists out, w'.
  destruct Hs;
    try (apply unchanged; solve [reflexivity | assumption]).
  exists (persisted (N.of_nat (length (store w))) fetched).
  split; [exact Hrun|]. split; [assumption|]. split.
  - rewrite persisted_length.
    match goal with H : mapC mapHit _ = Normal fetched |- _ =>
      rewrite (mapC_length _ _ H) end.
    rewrite length_firstn. lia.
  - intros status message Hout. discriminate.
Qed.

(** X9.  The handler replies 404 only on the fallback path, after a
    provider call whose answer had no hits container; nothing else
    happened in that request. *)
Theorem not_found_only_without_hits
        (env : Env) (req : Request) (w w' : World) (b : body) :
  getRecipes env req w = (Normal (Json 404 b), w') ->
  exists found queryString data,
    Recipe_find env (storeQuery req) noIds w = (Normal found, w) /\
    (length found < 12)%nat /\
    providerQueryString req = Normal queryString /\
    provider env queryString = Normal data /\
    (data = None \/ (exists d, data = Some d /\ Raw.hits d = None)) /\
    w' = logged queryString w.
Proof.
  intros Hrun.
  destruct (getRecipes_served env req w) as (out & w0 & Hrun0 & Hs).
  rewrite Hrun in Hrun0. injection Hrun0 as <- <-.
  inversion Hs; subst; try discriminate.
  eexists _, _, _. eauto 10.
Qed.

Lemma not_found_only_without_hits_witness :
  exists found queryString data,
    Recipe_find (Sample.env Sample.noHits) (storeQuery Sample.balanced) noIds
                Sample.emptyWorld = (Normal found, Sample.emptyWorld) /\
    (length found < 12)%nat /\
    providerQueryString Sample.balanced = Normal queryString /\
    provider (Sample.env Sample.noHits) queryString = Normal data /\
    (data = None \/ (exists d, data = Some d /\ Raw.hits d = None)) /\
    logged (lit "&diet=balanced&") Sample.emptyWorld
    = logged queryString Sample.emptyWorld.
Proof.
  apply (@not_found_only_without_hits
           (Sample.env Sample.noHits) Sample.balanced Sample.emptyWorld
           (logged (lit "&diet=balanced&") Sample.emptyWorld)
           (Error (lit "No recipes found"))).
  reflexivity.
Defined.

(** X10.  An empty [hits] array is not "no recipes found": the handler
    hands the empty batch to [insertMany] and replies 200 with an empty
    list. *)
Theorem empty_hits_give_empty_reply
        (env : Env) (req : Request) (w w1 : World) (found : list Recipe)
        (queryString : jsstring) (d : Raw.data) :
  Recipe_find env (storeQuery req) noIds w = (Normal found, w1) ->
  (length found < 12)%nat ->
  providerQueryString req = Normal queryString ->
  provider env queryString = Normal (Some d) ->
  Raw.hits d = Some [] ->
  accepts env [] = true ->
  exists w',
    getRecipes env req w = (Normal (Json 200 (Recipes [])), w') /\
    store w' = store w /\ inserts w' = inserts w ++ [[]].
Proof.
  intros Hfind Hlt Hqs Hp Hh Ha.
  rewrite (fallback_run _ _ _ Hfind Hlt Hqs), Hp, Hh.
  cbn [firstn mapC]. unfold Recipe_insertMany. rewrite Ha.
  cbn [logged store inserts calls draws persisted].
  eexists. split; [reflexivity|]. cbn [store inserts].
  split; [apply app_nil_r|reflexivity].
Qed.

Lemma empty_hits_give_empty_reply_witness :
  exists w',
    getRecipes (Sample.env (Some {| Raw.hits := Some [] |}))
               Sample.balanced Sample.emptyWorld
    = (Normal (Json 200 (Recipes [])), w') /\
    store w' = store Sample.emptyWorld /\
    inserts w' = inserts Sample.emptyWorld ++ [[]].
Proof.
  apply (@empty_hits_give_empty_reply
           (Sample.env (Some {| Raw.hits := Some [] |}))
           Sample.balanced Sample.emptyWorld Sample.emptyWorld []
           (lit "&diet=balanced&") {| Raw.hits := Some [] |}).
  - reflexivity.
  - simpl. lia.
  - reflexivity.
  - reflexivity.
  - reflexivity.
  - reflexivity.
Defined.

(** X11.  The store works as a cache: after a successful fallback that
    stored at least 12 records matching the request's filters, the same
    request again is answered from the store, without a provider call and
    without a write: the reply is the first twelve of a reordering of the
    records the store then holds for the request's filters, which are the
    matching records it held before followed by the matching records the
    fallback stored, all without [_id] and [__v]. *)
Theorem repeated_request_is_served_from_store
        (env : Env) (req : Request) (w w1 : World) (found : list Recipe)
        (queryString : jsstring) (d : Raw.data) (hits : list Raw.hit)
        (fetched : list Recipe) :
  Recipe_find env (storeQuery req) noIds w = (Normal found, w1) ->
  (length found < 12)%nat ->
  providerQueryString req = Normal queryString ->
  provider env queryString = Normal (Some d) ->
  Raw.hits d = Some hits ->
  mapC mapHit (firstn 100 hits) = Normal fetched ->
  accepts env fetched = true ->
  (12 <= length (filter (matches (storeQuery req)) fetched))%nat ->
  exists p w3,
    getRecipes env req (snd (getRecipes env req w))
    = (Normal (Json 200 (Recipes (firstn 12 p))), w3) /\
    length (firstn 12 p) = 12%nat /\
    calls w3 = calls (snd (getRecipes env req w)) /\
    store w3 = store (snd (getRecipes env req w)) /\
    inserts w3 = inserts (snd (getRecipes env req w)) /\
    store (snd (getRecipes env req w))
    = store w ++ persisted (N.of_nat (length (store w))) fetched /\
    Permutation
      (map (with_ids None None)
           (filter (matches (storeQuery req)) (store (snd (getRecipes env req w)))))
      p /\
    Permutation
      (found ++ map (with_ids None None) (filter (matches (storeQuery req)) fetched))
      p.
Proof.
  intros Hfind Hlt Hqs Hp Hh Hm Ha Hmatch.
  destruct (fallback_success_run _ _ _ Hfind Hlt Hqs Hp Hh Hm Ha)
    as (p1 & w2 & -> & _ & Hstore).
  cbn [snd].
  destruct (find_run _ _ _ _ Hfind) as (Hr & _ & Hfound).
  pose proof (find_reachable env (storeQuery req) noIds w2 Hr) as Hfind2.
  assert (12 <= length (map (project noIds)
                            (filter (matches (storeQuery req)) (store w2))))%nat
    as Hge.
  { rewrite length_map, Hstore, filter_app, length_app, filter_persisted. lia. }
  rewrite (sufficient_run _ _ _ Hfind2 Hge).
  match goal with
  | |- context [sample env ?ws w2] =>
      destruct (sample_run env ws w2) as (p & w3 & -> & Hperm & Hs & Hi & Hc)
  end.
  rewrite project_noIds in Hperm.
  exists p, w3. split; [reflexivity|].
  split; [rewrite length_firstn, <- (Permutation_length Hperm), length_map,
                  Hstore, filter_app, length_app, filter_persisted; lia|].
  split; [exact Hc|]. split; [exact Hs|]. split; [exact Hi|].
  split; [exact Hstore|]. split; [exact Hperm|].
  rewrite Hstore, filter_app, map_app, <- project_noIds, <- Hfound in Hperm.
  rewrite persisted_matches in Hperm. exact Hperm.
Qed.

Lemma repeated_request_is_served_from_store_witness :
  exists p w3,
    getRecipes (Sample.env Sample.thirteenHits) Sample.balanced
               (snd (getRecipes (Sample.env Sample.thirteenHits) Sample.balanced
                                Sample.emptyWorld))
    = (Normal (Json 200 (Recipes (firstn 12 p))), w3) /\
    length (firstn 12 p) = 12%nat /\
    calls w3 = [lit "&diet=balanced&"] /\
    Permutation
      match mapC mapHit (map Sample.hit Sample.decimals13) with
      | Normal fetched => fetched
      | Throw _ => []
      end p.
Proof.
  destruct (@repeated_request_is_served_from_store
              (Sample.env Sample.thirteenHits) Sample.balanced Sample.emptyWorld
              Sample.emptyWorld [] (lit "&diet=balanced&")
              {| Raw.hits := Some (map Sample.hit Sample.decimals13) |}
              (map Sample.hit Sample.decimals13)
              (match mapC mapHit (firstn 100 (map Sample.hit Sample.decimals13)) with
               | Normal fetched => fetched
               | Throw _ => []
               end)
              eq_refl ltac:(simpl; lia) eq_refl eq_refl eq_refl
              ltac:(vm_compute; reflexivity) eq_refl
              ltac:(vm_compute; repeat constructor))
    as (p & w3 & Hrun & Hlen & Hcalls & _ & _ & _ & _ & Hperm).
  exists p, w3. split; [exact Hrun|]. split; [exact Hlen|].
  split; [rewrite Hcalls; vm_compute; reflexivity|].
  vm_compute in Hperm |- *. exact Hperm.
Defined.

(** ** Letter case *)

Lemma lowerAscii_lowered (c : N) :
  c < 128 ->
  (lowerAscii c =? hyphen) = (c =? hyphen) /\
  upperAscii (lowerAscii c) = upperAscii c /\
  lowerAscii (lowerAscii c) = lowerAscii c.
Proof.
  intros Hc. unfold hyphen.
  destruct (N.le_gt_cases 65 c) as [Hlo|Hlo];
    [destruct (N.le_gt_cases c 90) as [Hhi|Hhi]|];
    unfold lowerAscii, upperAscii; repeat split; unit_cases.
Qed.

Lemma capitalizeFrom_lowerUnits (s : jsstring) :
  isAscii s = true ->
  forall start, capitalizeFrom start (lowerUnits s) = capitalizeFrom start s.
Proof.
  induction s as [|c r IH]; intros Ha start; [reflexivity|].
  apply isAscii_cons in Ha. destruct Ha as [Hc Hr].
  change (lowerUnits (c :: r)) with (lowerAscii c :: lowerUnits r).
  cbn [capitalizeFrom].
  destruct (lowerAscii_lowered Hc) as (-> & -> & ->).
  now rewrite !IH.
Qed.

Lemma capitalizeFrom_lowered (s : jsstring) :
  isAscii s = true ->
  forall start, capitalizeFrom start (toLowerCase s) = capitalizeFrom start s.
Proof.
  intros Ha start. rewrite (toLowerCase_units s Ha).
  now apply capitalizeFrom_lowerUnits.
Qed.

Lemma case_variants_share_store_form (a b : jsstring) :
  isAscii a = true -> isAscii b = true ->
  toLowerCase a = toLowerCase b -> capitalizeWords a = capitalizeWords b.
Proof.
  intros Ha Hb H.
  rewrite (capitalizeWords_units a Ha), (capitalizeWords_units b Hb).
  rewrite <- (capitalizeFrom_lowered a Ha true),
          <- (capitalizeFrom_lowered b Hb true).
  now rewrite H.
Qed.

Lemma store_form_keeps_letters (a b : jsstring) :
  isAscii a = true -> isAscii b = true ->
  capitalizeWords a = capitalizeWords b -> toLowerCase a = toLowerCase b.
Proof.
  intros Ha Hb H.
  rewrite (capitalizeWords_units a Ha), (capitalizeWords_units b Hb) in H.
  rewrite <- (lower_of_capitalizeFrom a Ha true),
          <- (lower_of_capitalizeFrom b Hb true).
  now rewrite H.
Qed.

(** X12.  On ASCII tokens the store form forgets letter case and nothing
    else: two tokens have the same store form exactly when they have the
    same lowercase form. *)
Theorem store_form_identifies_case_variants (a b : jsstring) :
  isAscii a = true -> isAscii b = true ->
  (capitalizeWords a = capitalizeWords b <-> toLowerCase a = toLowerCase b).
Proof.
  intros Ha Hb. split.
  - now apply store_form_keeps_letters.
  - now apply case_variants_share_store_form.
Qed.

Lemma store_form_identifies_case_variants_witness :
  capitalizeWords (lit "LOW-carb") = capitalizeWords (lit "low-CARB").
Proof.
  apply (store_form_identifies_case_variants (lit "LOW-carb") (lit "low-CARB"));
    reflexivity.
Defined.

Lemma store_forms_of_lowered (ts : list jsstring) :
  Forall (fun t => isAscii t = true) ts ->
  map capitalizeWords ts = map capitalizeWords (map toLowerCase ts).
Proof.
  induction 1 as [|t ts Ht _ IH]; [reflexivity|].
  cbn [map]. rewrite IH. f_equal.
  rewrite (capitalizeWords_units t Ht).
  rewrite (capitalizeWords_units _ (toLowerCase_ascii t Ht)).
  symmetry. now apply capitalizeFrom_lowered.
Qed.

(** X13.  Requests whose ASCII tokens differ only in letter case are the
    same request to the handler: same store query, same provider query,
    same reply and same effects. *)
Theorem letter_case_of_tokens_is_ignored
        (env : Env) (req1 req2 : Request) (w : World) :
  asciiRequest req1 -> asciiRequest req2 ->
  map toLowerCase (tokens (query_diet req1))
  = map toLowerCase (tokens (query_diet req2)) ->
  map toLowerCase (tokens (query_health req1))
  = map toLowerCase (tokens (query_health req2)) ->
  storeQuery req1 = storeQuery req2 /\
  providerQueryString req1 = providerQueryString req2 /\
  getRecipes env req1 w = getRecipes env req2 w.
Proof.
  intros [Hd1 Hh1] [Hd2 Hh2] Hd Hh.
  assert (criteriaArray (orEmptyArray (query_diet req1))
          = criteriaArray (orEmptyArray (query_diet req2))) as Ed.
  { rewrite !criteriaArray_tokens.
    rewrite (store_forms_of_lowered Hd1), (store_forms_of_lowered Hd2).
    now rewrite Hd. }
  assert (criteriaArray (orEmptyArray (query_health req1))
          = criteriaArray (orEmptyArray (query_health req2))) as Eh.
  { rewrite !criteriaArray_tokens.
    rewrite (store_forms_of_lowered Hh1), (store_forms_of_lowered Hh2).
    now rewrite Hh. }
  assert (storeQuery req1 = storeQuery req2) as Eq
      by (unfold storeQuery; now rewrite Ed, Eh).
  assert (providerQueryString req1 = providerQueryString req2) as Ep
      by (unfold providerQueryString; now rewrite Ed, Eh).
  split; [exact Eq|]. split; [exact Ep|].
  rewrite !getRecipes_run, !reconcile_run. now rewrite Eq, Ep.
Qed.

Lemma letter_case_of_tokens_is_ignored_witness :
  getRecipes (Sample.env Sample.thirteenHits)
             {| query_diet := Many [lit "BALANCED"]; query_health := Absent |}
             Sample.emptyWorld
  = getRecipes (Sample.env Sample.thirteenHits) Sample.balanced Sample.emptyWorld.
Proof.
  apply (@letter_case_of_tokens_is_ignored
           (Sample.env Sample.thirteenHits)
           {| query_diet := Many [lit "BALANCED"]; query_health := Absent |}
           Sample.balanced Sample.emptyWorld).
  - split; repeat constructor.
  - split; repeat constructor.
  - reflexivity.
  - reflexivity.
Defined.

(** X14.  A record mapped from a hit answers a store query for an ASCII
    diet token exactly when one of the provider's diet labels equals the
    token up to letter case. *)
Theorem mapped_record_matches_up_to_case
        (hit : Raw.hit) (raw : Raw.recipe) (diet : list jsstring)
        (r : Recipe) (t : jsstring) :
  Raw.recipe_of hit = Some raw ->
  Raw.dietLabels raw = Some diet ->
  Forall (fun l => isAscii l = true) diet ->
  isAscii t = true ->
  mapHit hit = Normal r ->
  (includes (dietLabels r) (capitalizeWords t) = true <->
   exists l, In l diet /\ toLowerCase l = toLowerCase t).
Proof.
  intros Hraw Hdiet Hascii Ht Hmap.
  unfold mapHit in Hmap. rewrite Hraw, Hdiet in Hmap.
  destruct (Raw.healthLabels raw) as [health|]; [|discriminate].
  injection Hmap as <-. cbn [dietLabels].
  rewrite includes_In, in_map_iff.
  rewrite Forall_forall in Hascii.
  split; intros (l & H1 & H2).
  - exists l. split; [assumption|].
    exact (store_form_keeps_letters l t (Hascii l H2) Ht H1).
  - exists l. split; [|assumption].
    exact (case_variants_share_store_form l t (Hascii l H1) Ht H2).
Qed.

Lemma mapped_record_matches_up_to_case_witness :
  exists r,
    mapHit (Sample.hit 0) = Normal r /\
    includes (dietLabels r) (capitalizeWords (lit "BALANCED")) = true.
Proof.
  eexists.
  refine ((fun Hmap =>
             conj Hmap
                  (proj2 (@mapped_record_matches_up_to_case
                            (Sample.hit 0) _ [lit "balanced"] _ (lit "BALANCED")
                            eq_refl eq_refl _ eq_refl Hmap) _)) _).
  - repeat constructor.
  - exists (lit "balanced"). split; [left; reflexivity|reflexivity].
  - reflexivity.
Defined.

Lemma upperAscii_not_lower (c : N) :
  c < 128 -> c <> hyphen ->
  exists u, upperAscii c = [u] /\ u <> hyphen /\ isLowerLetter u = false.
Proof.
  intros Hc Hh. unfold hyphen in *.
  destruct (N.le_gt_cases 97 c) as [Hlo|Hlo];
    [destruct (N.le_gt_cases c 122) as [Hhi|Hhi]|].
  - exists (c - 32). unfold upperAscii, isLowerLetter. repeat split; unit_cases.
  - exists c. unfold upperAscii, isLowerLetter. repeat split; unit_cases.
  - exists c. unfold upperAscii, isLowerLetter. repeat split; unit_cases.
Qed.

Lemma lowerAscii_not_upper (c : N) :
  c < 128 -> isUpperLetter (lowerAscii c) = false.
Proof.
  intros Hc.
  destruct (N.le_gt_cases 65 c) as [Hlo|Hlo];
    [destruct (N.le_gt_cases c 90) as [Hhi|Hhi]|];
    unfold lowerAscii, isUpperLetter; unit_cases.
Qed.

Lemma capitalizeFrom_length (s : jsstring) :
  isAscii s = true ->
  forall start, length (capitalizeFrom start s) = length s.
Proof.
  induction s as [|c r IH]; intros Ha start; [reflexivity|].
  apply isAscii_cons in Ha. destruct Ha as [Hc Hr].
  cbn [capitalizeFrom].
  destruct (N.eqb_spec c hyphen) as [->|Hh]; [simpl; now rewrite IH|].
  destruct start.
  - destruct (upperAscii_not_lower Hc Hh) as (u & -> & _).
    simpl. now rewrite IH.
  - simpl. now rewrite IH.
Qed.

(** The segments of what [capitalizeFrom] gives: the first continues a
    segment or starts one, the others are whole segments. *)
Lemma capitalizeFrom_segments (s : jsstring) :
  isAscii s = true ->
  forall start,
  exists w ws,
    split hyphen (capitalizeFrom start s) = w :: ws /\
    (if start then titleCased w else Forall (fun d => isUpperLetter d = false) w) /\
    Forall titleCased ws.
Proof.
  induction s as [|c r IH]; intros Ha start.
  - exists [], []. split; [reflexivity|]. split; [|constructor].
    destruct start; simpl; auto.
  - apply isAscii_cons in Ha. destruct Ha as [Hc Hr].
    cbn [capitalizeFrom].
    destruct (N.eqb_spec c hyphen) as [->|Hh].
    + destruct (IH Hr true) as (w & ws & Hsplit & Hw & Hws).
      exists [], (w :: ws). cbn [split]. rewrite N.eqb_refl, Hsplit.
      split; [reflexivity|]. split; [destruct start; simpl; auto|].
      constructor; assumption.
    + destruct (IH Hr false) as (w & ws & Hsplit & Hw & Hws).
      destruct start.
      * destruct (upperAscii_not_lower Hc Hh) as (u & -> & Hu & Hlow).
        exists (u :: w), ws. cbn [app split].
        destruct (N.eqb_spec u hyphen); [contradiction|].
        rewrite Hsplit. split; [reflexivity|]. split; [|assumption].
        split; assumption.
      * destruct (lowerAscii_ascii Hc Hh) as (_ & Hl & _).
        exists (lowerAscii c :: w), ws. cbn [app split].
        destruct (N.eqb_spec (lowerAscii c) hyphen); [contradiction|].
        rewrite Hsplit. split; [reflexivity|]. split; [|assumption].
        constructor; [now apply lowerAscii_not_upper|assumption].
Qed.

(** X15.  The store form of an ASCII token is Title-Case: it has the
    length of the token, and each of its hyphen-segments has no lowercase
    letter first and no uppercase letter after. *)
Theorem store_form_is_title_case (token : jsstring) :
  isAscii token = true ->
  length (capitalizeWords token) = length token /\
  Forall titleCased (split hyphen (capitalizeWords token)).
Proof.
  intros Ha. rewrite (capitalizeWords_units token Ha). split.
  - now apply capitalizeFrom_length.
  - destruct (capitalizeFrom_segments token Ha true) as (w & ws & -> & Hw & Hws).
    now constructor.
Qed.

Lemma store_form_is_title_case_witness :
  length (capitalizeWords (lit "dAIRY-free")) = length (lit "dAIRY-free") /\
  Forall titleCased (split hyphen (capitalizeWords (lit "dAIRY-free"))).
Proof.
  apply store_form_is_title_case. reflexivity.
Defined.

(** ** The [/print] route *)

Section PrintFacts.

Variable toFixed2 : number -> jsstring.
Variable toString : option number -> jsstring.

Lemma renderRecipe_ended (recipe : Submitted.recipe) :
  snd (renderRecipe toFixed2 toString recipe) = renderable recipe.
Proof.
  unfold renderRecipe, renderable, printable.
  destruct (Submitted.caloriesPerServing recipe); [|reflexivity].
  destruct (Submitted.dietLabels recipe); [|reflexivity].
  destruct (Submitted.healthLabels recipe); [|reflexivity].
  destruct (Submitted.ingredients recipe); reflexivity.
Qed.

Lemma renderRecipe_calls (recipe : Submitted.recipe) :
  renderable recipe = true ->
  length (fst (renderRecipe toFixed2 toString recipe)) = 31%nat.
Proof.
  unfold renderRecipe, renderable, printable.
  destruct (Submitted.caloriesPerServing recipe); [|discriminate].
  destruct (Submitted.dietLabels recipe); [|discriminate].
  destruct (Submitted.healthLabels recipe); [|discriminate].
  destruct (Submitted.ingredients recipe); [|discriminate].
  reflexivity.
Qed.

Lemma renderRecipe_heading (recipe : Submitted.recipe) :
  firstn 2 (fst (renderRecipe toFixed2 toString recipe))
  = [fontSize 25; text (Submitted.title recipe) false].
Proof.
  unfold renderRecipe.
  destruct (Submitted.caloriesPerServing recipe); [|reflexivity].
  destruct (Submitted.dietLabels recipe); [|reflexivity].
  destruct (Submitted.healthLabels recipe); [|reflexivity].
  destruct (Submitted.ingredients recipe); reflexivity.
Qed.

Lemma renderRecipe_unlisted (recipe : Submitted.recipe) :
  printable recipe = true ->
  Submitted.ingredients recipe = None ->
  length (fst (renderRecipe toFixed2 toString recipe)) = 30%nat /\
  last (fst (renderRecipe toFixed2 toString recipe)) (list_ (Some [])) = list_ None.
Proof.
  unfold renderRecipe, printable. intros Hp Hi. rewrite Hi.
  destruct (Submitted.caloriesPerServing recipe); [|discriminate].
  destruct (Submitted.dietLabels recipe); [|discriminate].
  destruct (Submitted.healthLabels recipe); [|discriminate].
  split; reflexivity.
Qed.

Lemma complete_renderable (recipe : Submitted.recipe) :
  complete recipe = true -> renderable recipe = true.
Proof.
  unfold complete, renderable. intros H.
  apply andb_true_iff in H. destruct H as [-> H].
  destruct (Submitted.title recipe); [|discriminate].
  destruct (Submitted.ingredients recipe); [reflexivity|discriminate].
Qed.

Lemma complete_all_renderable (recipes : list Submitted.recipe) :
  forallb complete recipes = true -> forallb renderable recipes = true.
Proof.
  rewrite !forallb_forall. intros H r Hr. apply complete_renderable. now apply H.
Qed.

(** While the recipes are renderable, [forEach] goes on. *)
Lemma renderAll_app (before rest : list Submitted.recipe) :
  forallb renderable before = true ->
  renderAll toFixed2 toString (before ++ rest)
  = (flat_map (fun r => fst (renderRecipe toFixed2 toString r)) before
       ++ fst (renderAll toFixed2 toString rest),
     snd (renderAll toFixed2 toString rest)).
Proof.
  induction before as [|r before IH]; intros Hall.
  - simpl. now destruct (renderAll toFixed2 toString rest).
  - cbn [forallb] in Hall. apply andb_true_iff in Hall. destruct Hall as [Hr Hall].
    cbn [app renderAll flat_map].
    pose proof (renderRecipe_ended r) as He. rewrite Hr in He.
    destruct (renderRecipe toFixed2 toString r) as [ops ended].
    cbn [snd fst] in He |- *. subst ended.
    rewrite (IH Hall). cbn [fst snd]. now rewrite app_assoc.
Qed.

(** A recipe that is not renderable is the last one drawn. *)
Lemma renderAll_cut (before after : list Submitted.recipe) (bad : Submitted.recipe) :
  forallb renderable before = true ->
  renderable bad = false ->
  postPrint toFixed2 toString {| body_recipes := Some (before ++ bad :: after) |}
  = Streamed pdfHeaders
             (flat_map (fun r => fst (renderRecipe toFixed2 toString r)) before
                ++ fst (renderRecipe toFixed2 toString bad))
             false.
Proof.
  intros Hall Hbad.
  unfold postPrint. cbn [body_recipes].
  assert (renderAll toFixed2 toString (bad :: after)
          = (fst (renderRecipe toFixed2 toString bad), false)) as Hcut.
  { cbn [renderAll]. pose proof (renderRecipe_ended bad) as He.
    rewrite Hbad in He.
    destruct (renderRecipe toFixed2 toString bad) as [ops ended].
    cbn [snd fst] in He |- *. now subst ended. }
  destruct (before ++ bad :: after) as [|x xs] eqn:E.
  - destruct before; discriminate.
  - rewrite <- E, (renderAll_app before (bad :: after) Hall), Hcut.
    reflexivity.
Qed.

(** X16.  The [/print] route sends a JSON reply only for an absent or empty
    recipe list, and that reply is 400 "No recipes provided": every
    non-empty list starts a PDF response. *)
Theorem print_replies_only_to_empty_lists (req : PrintRequest) (r : Response) :
  postPrint toFixed2 toString req = Replied r ->
  (body_recipes req = None \/ body_recipes req = Some []) /\
  r = Json 400 (Error (lit "No recipes provided")).
Proof.
  unfold postPrint.
  destruct (body_recipes req) as [[|first rest]|]; intros H.
  - injection H as <-. auto.
  - destruct (renderAll toFixed2 toString (first :: rest)). discriminate.
  - injection H as <-. auto.
Qed.

(** X17.  When every submitted recipe has a title, [caloriesPerServing],
    [dietLabels], [healthLabels] and ingredients, the PDF is sent with its
    two headers and ended; it holds the recipes in the order submitted, 31
    drawing calls each. *)
Theorem complete_recipes_are_all_rendered
        (first : Submitted.recipe) (rest : list Submitted.recipe) :
  forallb complete (first :: rest) = true ->
  postPrint toFixed2 toString {| body_recipes := Some (first :: rest) |}
  = Streamed pdfHeaders
             (flat_map (fun r => fst (renderRecipe toFixed2 toString r)) (first :: rest))
             true /\
  length (flat_map (fun r => fst (renderRecipe toFixed2 toString r)) (first :: rest))
  = (31 * length (first :: rest))%nat.
Proof.
  intros Hall. apply complete_all_renderable in Hall. split.
  - unfold postPrint. cbn [body_recipes].
    rewrite <- (app_nil_r (first :: rest)) at 1.
    rewrite (renderAll_app (first :: rest) [] Hall).
    cbn [renderAll fst snd]. now rewrite app_nil_r.
  - revert Hall. generalize (first :: rest) as recipes.
    induction recipes as [|r recipes IH]; intros Hall; [reflexivity|].
    cbn [forallb] in Hall. apply andb_true_iff in Hall. destruct Hall as [Hr Hall].
    cbn [flat_map]. rewrite length_app, (renderRecipe_calls r Hr), (IH Hall).
    simpl length. lia.
Qed.

(** X18.  A titled recipe without [caloriesPerServing], [dietLabels] or
    [healthLabels] stops the handler in the middle of the stream: the
    headers are out, the complete recipes before it are drawn in full, its
    own heading is drawn, no later recipe is drawn, and the document is
    never ended. *)
Theorem unprintable_recipe_cuts_the_stream
        (before after : list Submitted.recipe) (bad : Submitted.recipe) :
  forallb complete before = true ->
  Submitted.title bad <> None ->
  printable bad = false ->
  postPrint toFixed2 toString {| body_recipes := Some (before ++ bad :: after) |}
  = Streamed pdfHeaders
             (flat_map (fun r => fst (renderRecipe toFixed2 toString r)) before
                ++ fst (renderRecipe toFixed2 toString bad))
             false /\
  firstn 2 (fst (renderRecipe toFixed2 toString bad))
  = [fontSize 25; text (Submitted.title bad) false].
Proof.
  intros Hall _ Hbad. apply complete_all_renderable in Hall.
  split; [|apply renderRecipe_heading].
  apply renderAll_cut; [exact Hall|].
  unfold renderable. now rewrite Hbad.
Qed.

(** X24.  A recipe that has what the callback reads a method of, but no
    ingredient list, stops the handler at [doc.list]: the complete recipes
    before it are drawn in full, its own 30 calls end with the call of
    [list] on nothing, no later recipe is drawn, and the document is never
    ended. *)
Theorem missing_ingredients_cut_the_stream
        (before after : list Submitted.recipe) (bad : Submitted.recipe) :
  forallb complete before = true ->
  printable bad = true ->
  Submitted.ingredients bad = None ->
  postPrint toFixed2 toString {| body_recipes := Some (before ++ bad :: after) |}
  = Streamed pdfHeaders
             (flat_map (fun r => fst (renderRecipe toFixed2 toString r)) before
                ++ fst (renderRecipe toFixed2 toString bad))
             false /\
  length (fst (renderRecipe toFixed2 toString bad)) = 30%nat /\
  last (fst (renderRecipe toFixed2 toString bad)) (list_ (Some [])) = list_ None.
Proof.
  intros Hall Hp Hi. apply complete_all_renderable in Hall.
  split; [|now apply renderRecipe_unlisted].
  apply renderAll_cut; [exact Hall|].
  unfold renderable. now rewrite Hi, andb_false_r.
Qed.

End PrintFacts.

Lemma print_replies_only_to_empty_lists_witness :
  (body_recipes {| body_recipes := None |} = None \/
   body_recipes {| body_recipes := None |} = Some []) /\
  Json 400 (Error (lit "No recipes provided"))
  = Json 400 (Error (lit "No recipes provided")).
Proof.
  apply (@print_replies_only_to_empty_lists
           Printed.toFixed2 Printed.toString {| body_recipes := None |}
           (Json 400 (Error (lit "No recipes provided")))).
  reflexivity.
Defined.

Lemma complete_recipes_are_all_rendered_witness :
  postPrint Printed.toFixed2 Printed.toString
            {| body_recipes := Some [Printed.soup; Printed.soup] |}
  = Streamed pdfHeaders
             (flat_map (fun r => fst (renderRecipe Printed.toFixed2 Printed.toString r))
                       [Printed.soup; Printed.soup])
             true /\
  length (flat_map (fun r => fst (renderRecipe Printed.toFixed2 Printed.toString r))
                   [Printed.soup; Printed.soup])
  = (31 * length [Printed.soup; Printed.soup])%nat.
Proof.
  apply complete_recipes_are_all_rendered. reflexivity.
Defined.

Lemma unprintable_recipe_cuts_the_stream_witness :
  postPrint Printed.toFixed2 Printed.toString
            {| body_recipes := Some ([Printed.soup] ++ Printed.uncounted :: [Printed.soup]) |}
  = Streamed pdfHeaders
             (flat_map (fun r => fst (renderRecipe Printed.toFixed2 Printed.toString r))
                       [Printed.soup]
                ++ fst (renderRecipe Printed.toFixed2 Printed.toString Printed.uncounted))
             false /\
  firstn 2 (fst (renderRecipe Printed.toFixed2 Printed.toString Printed.uncounted))
  = [fontSize 25; text (Submitted.title Printed.uncounted) false].
Proof.
  apply unprintable_recipe_cuts_the_stream.
  - reflexivity.
  - discriminate.
  - reflexivity.
Defined.

Lemma missing_ingredients_cut_the_stream_witness :
  postPrint Printed.toFixed2 Printed.toString
            {| body_recipes := Some ([Printed.soup] ++ Printed.unlisted :: [Printed.soup]) |}
  = Streamed pdfHeaders
             (flat_map (fun r => fst (renderRecipe Printed.toFixed2 Printed.toString r))
                       [Printed.soup]
                ++ fst (renderRecipe Printed.toFixed2 Printed.toString Printed.unlisted))
             false /\
  length (fst (renderRecipe Printed.toFixed2 Printed.toString Printed.unlisted))
  = 30%nat /\
  last (fst (renderRecipe Printed.toFixed2 Printed.toString Printed.unlisted))
       (list_ (Some []))
  = list_ None.
Proof.
  apply missing_ingredients_cut_the_stream; reflexivity.
Defined.

(** ** The first handler *)

Lemma basic_mapHit_total (hits : list Raw.hit) :
  Forall (fun h => Raw.recipe_of h <> None) hits ->
  exists recipes, mapC Basic.mapHit hits = Normal recipes.
Proof.
  induction 1 as [|h hits Hh _ [recipes IH]]; [exists []; reflexivity|].
  cbn [mapC]. unfold Basic.mapHit at 1.
  destruct (Raw.recipe_of h); [|contradiction].
  rewrite IH. eauto.
Qed.

(** X19.  The first handler calls the provider exactly once per request;
    it either replies 200 with at most ten records, which are exactly the
    records it appended to the store, or replies 404 or 500 with an error
    and leaves the store as it was. *)
Theorem basic_reply_is_what_was_stored (env : Basic.Env) (w : Basic.World) :
  Basic.calls (snd (Basic.getRecipes env w)) = S (Basic.calls w) /\
  ((exists recipes,
       fst (Basic.getRecipes env w) = Basic.Json 200 (Basic.Recipes recipes) /\
       Basic.store (snd (Basic.getRecipes env w)) = Basic.store w ++ recipes /\
       (length recipes <= 10)%nat) \/
   (exists status message,
       fst (Basic.getRecipes env w) = Basic.Json status (Basic.Error message) /\
       (status = 404%nat \/ status = 500%nat) /\
       Basic.store (snd (Basic.getRecipes env w)) = Basic.store w)).
Proof.
  unfold Basic.getRecipes.
  destruct (Basic.answer env) as [[d|]|e];
    try (split; [reflexivity|]; right; eexists _, _; cbn; auto; fail).
  destruct (Raw.hits d) as [hits|];
    try (split; [reflexivity|]; right; eexists _, _; cbn; auto; fail).
  destruct (mapC Basic.mapHit (firstn 10 hits)) as [recipes|e] eqn:Hm;
    try (split; [reflexivity|]; right; eexists _, _; cbn; auto; fail).
  destruct (Basic.accepts env recipes);
    try (split; [reflexivity|]; right; eexists _, _; cbn; auto; fail).
  split; [reflexivity|]. left. exists recipes. cbn.
  split; [reflexivity|]. split; [reflexivity|].
  rewrite (mapC_length _ _ Hm), length_firstn. lia.
Qed.

(** X20.  The first handler tolerates hits with missing properties: when
    each of the first ten hits has a [recipe] object and the store takes
    the batch, the reply is 200 with one record per hit, up to ten, all of
    them stored. *)
Theorem basic_maps_first_ten_hits
        (env : Basic.Env) (w : Basic.World) (d : Raw.data) (hits : list Raw.hit) :
  Basic.answer env = Normal (Some d) ->
  Raw.hits d = Some hits ->
  Forall (fun h => Raw.recipe_of h <> None) (firstn 10 hits) ->
  (forall batch, Basic.accepts env batch = true) ->
  exists recipes,
    mapC Basic.mapHit (firstn 10 hits) = Normal recipes /\
    Basic.getRecipes env w
    = (Basic.Json 200 (Basic.Recipes recipes),
       {| Basic.store := Basic.store w ++ recipes;
          Basic.inserts := Basic.inserts w ++ [recipes];
          Basic.calls := S (Basic.calls w) |}) /\
    length recipes = Nat.min 10 (length hits).
Proof.
  intros Ha Hh Hall Hacc.
  destruct (basic_mapHit_total Hall) as [recipes Hm].
  exists recipes. split; [exact Hm|]. split.
  - unfold Basic.getRecipes. now rewrite Ha, Hh, Hm, Hacc.
  - rewrite (mapC_length _ _ Hm). apply length_firstn.
Qed.

Lemma basic_maps_first_ten_hits_witness :
  exists recipes,
    mapC Basic.mapHit (firstn 10 (map Sample.hit Sample.decimals13 ++
                                  [Sample.hitWithoutDietLabels]))
    = Normal recipes /\
    length recipes = 10%nat.
Proof.
  destruct (@basic_maps_first_ten_hits
              {| Basic.answer :=
                   Normal (Some {| Raw.hits :=
                                     Some (map Sample.hit Sample.decimals13 ++
                                           [Sample.hitWithoutDietLabels]) |});
                 Basic.accepts := fun _ => true |}
              {| Basic.store := []; Basic.inserts := []; Basic.calls := 0 |}
              {| Raw.hits := Some (map Sample.hit Sample.decimals13 ++
                                   [Sample.hitWithoutDietLabels]) |}
              (map Sample.hit Sample.decimals13 ++ [Sample.hitWithoutDietLabels])
              eq_refl eq_refl
              ltac:(repeat constructor; discriminate)
              (fun _ => eq_refl))
    as (recipes & Hm & _ & Hlen).
  exists recipes. split; [exact Hm|exact Hlen].
Defined.

(** X21.  In a record of the first handler [calories] and [totalTime] are
    never NaN: an absent, zero or NaN value is replaced by 0. *)
Theorem basic_numbers_are_never_nan (hit : Raw.hit) (r : Basic.Recipe) :
  Basic.mapHit hit = Normal r ->
  PrimFloat.is_nan (Basic.calories r) = false /\
  PrimFloat.is_nan (Basic.totalTime r) = false.
Proof.
  assert (forall x, PrimFloat.is_nan (Basic.orZero x) = false) as Hzero.
  { intros [v|]; [|reflexivity]. unfold Basic.orZero.
    destruct (PrimFloat.is_nan v) eqn:Hn; [reflexivity|].
    destruct (PrimFloat.is_zero v); [reflexivity|exact Hn]. }
  unfold Basic.mapHit. destruct (Raw.recipe_of hit) as [raw|]; [|discriminate].
  intros H. injection H as <-. cbn [Basic.calories Basic.totalTime]. auto.
Qed.

Lemma basic_numbers_are_never_nan_witness :
  exists r,
    Basic.mapHit {| Raw.recipe_of := Some
                      {| Raw.label := None; Raw.image := None; Raw.source := None;
                         Raw.url := None; Raw.dietLabels := None;
                         Raw.healthLabels := None; Raw.ingredientLines := None;
                         Raw.yield := None; Raw.calories := Some nan;
                         Raw.totalTime := None; Raw.cuisineType := None;
                         Raw.mealType := None; Raw.dishType := None;
                         Raw.totalNutrients := None |} |}
    = Normal r /\
    PrimFloat.is_nan (Basic.calories r) = false /\
    PrimFloat.is_nan (Basic.totalTime r) = false.
Proof.
  eexists.
  refine ((fun Hmap => conj Hmap (basic_numbers_are_never_nan _ Hmap)) _).
  reflexivity.
Defined.

(** X22.  The first handler replies 404 exactly when the provider's answer
    is empty or has no hits container. *)
Theorem basic_not_found_iff_no_hits (env : Basic.Env) (w : Basic.World) :
  (exists b, fst (Basic.getRecipes env w) = Basic.Json 404 b) <->
  (Basic.answer env = Normal None \/
   exists d, Basic.answer env = Normal (Some d) /\ Raw.hits d = None).
Proof.
  unfold Basic.getRecipes. split.
  - intros [b H].
    destruct (Basic.answer env) as [[d|]|e]; [|now left|discriminate].
    destruct (Raw.hits d) as [hits|] eqn:Hh; [|right; eauto].
    destruct (mapC Basic.mapHit (firstn 10 hits)) as [recipes|e]; [|discriminate].
    destruct (Basic.accepts env recipes); discriminate.
  - intros [-> | (d & -> & ->)]; eexists; reflexivity.
Qed.

(** ** Calls and writes of a request *)

(** X23.  A request calls the provider at most once and hands at most one
    batch, of at most a hundred records, to [insertMany]; it calls the
    provider only when the store returned fewer than 12 records, and
    writes only after a provider call. *)
Theorem at_most_one_call_and_one_write (env : Env) (req : Request) (w : World) :
  exists out w',
    getRecipes env req w = (Normal out, w') /\
    ((calls w' = calls w /\ inserts w' = inserts w) \/
     (exists found queryString,
         Recipe_find env (storeQuery req) noIds w = (Normal found, w) /\
         (length found < 12)%nat /\
         providerQueryString req = Normal queryString /\
         calls w' = calls w ++ [queryString] /\
         (inserts w' = inserts w \/
          exists batch,
            inserts w' = inserts w ++ [batch] /\ (length batch <= 100)%nat))).
Proof.
  destruct (getRecipes_served env req w) as (out & w' & Hrun & Hs).
  exists out, w'. split; [exact Hrun|].
  assert (forall hits fetched,
             mapC mapHit (firstn 100 hits) = Normal fetched ->
             (length fetched <= 100)%nat) as bound.
  { intros hits fetched Hm. rewrite (mapC_length _ _ Hm), length_firstn. lia. }
  destruct Hs;
    try (left; split; solve [reflexivity | assumption]);
    right; exists found, queryString;
    (split; [assumption|]); (split; [assumption|]); (split; [assumption|]);
    (split; [solve [reflexivity | assumption]|]);
    try (left; reflexivity);
    right; exists fetched; (split; [solve [reflexivity | assumption]|]);
    eapply bound; eassumption.
Qed.
